(** * einkDisplay: [convert.py] embedded and checked against its specification

    [convert.py] turns an image file (or every file of a directory) into a
    800x480 or 480x800 bitmap restricted to the seven colours of a
    Waveshare e-ink panel.  The script is embedded function by function:
    Python values that change type at run time are [pyval]s, exceptions
    are values of [exn] with Python's class hierarchy, the file system and
    the standard output are an explicit [world] threaded through a state
    and exception monad [M], and Python's floats are IEEE 754 binary64
    numbers computed with the Standard Library's [SpecFloat]. *)

From Stdlib Require Import ZArith QArith Qabs Qround Qminmax Floats.SpecFloat.
From Stdlib Require Import Strings.Byte Strings.Ascii.
From stdpp Require Import gmap strings list.

#[local] Open Scope string_scope.
#[local] Open Scope Z_scope.

(** ** Python values *)

(** The values the script's variables hold. *)
Inductive pyval :=
| PNone
| PBool (b : bool)
| PInt (z : Z)
| PStr (s : string).

#[global] Instance pyval_eq_dec : EqDecision pyval.
Proof. solve_decision. Defined.

(** Truth value of an object in an [if]: [None], [False], [0] and the empty
    string are false. *)
Definition truthy (v : pyval) : bool :=
  match v with
  | PNone => false
  | PBool b => b
  | PInt z => negb (z =? 0)
  | PStr s => negb (String.eqb s "")
  end.

(** [v == s] for a string literal [s]; [True == 1] style coercions only
    relate numbers, so a string equals strings only. *)
Definition py_eq_str (v : pyval) (s : string) : bool :=
  match v with
  | PStr t => String.eqb t s
  | _ => false
  end.

(** [v == w] on the values above ([bool] is a subclass of [int]). *)
Definition py_eq (v w : pyval) : bool :=
  match v, w with
  | PNone, PNone => true
  | PStr s, PStr t => String.eqb s t
  | PInt a, PInt b => a =? b
  | PBool a, PBool b => Bool.eqb a b
  | PBool a, PInt b | PInt b, PBool a => (if a then 1 else 0) =? b
  | _, _ => false
  end.

(** ** Exceptions *)

(** The exception classes the script and its libraries can raise. *)
Inductive pyclass :=
| BaseException
| SystemExit
| Exception
| ArithmeticError
| ZeroDivisionError
| OverflowError
| AttributeError
| TypeError
| ValueError
| SyntaxError
| OSError
| FileNotFoundError
| PermissionError
| IsADirectoryError
| NotADirectoryError
| UnidentifiedImageError
| DecompressionBombError.

#[global] Instance pyclass_eq_dec : EqDecision pyclass.
Proof. solve_decision. Defined.

(** [IOError] has been an alias of [OSError] since Python 3.3. *)
Definition IOError : pyclass := OSError.

(** The direct base class ([__base__]); [BaseException] is the root. *)
Definition base (c : pyclass) : option pyclass :=
  match c with
  | BaseException => None
  | SystemExit => Some BaseException
  | Exception => Some BaseException
  | ArithmeticError => Some Exception
  | ZeroDivisionError => Some ArithmeticError
  | OverflowError => Some ArithmeticError
  | AttributeError => Some Exception
  | TypeError => Some Exception
  | ValueError => Some Exception
  | SyntaxError => Some Exception
  | OSError => Some Exception
  | FileNotFoundError => Some OSError
  | PermissionError => Some OSError
  | IsADirectoryError => Some OSError
  | NotADirectoryError => Some OSError
  | UnidentifiedImageError => Some OSError
  | DecompressionBombError => Some Exception
  end.

(** [issubclass c d], walking up at most [n] base classes. *)
Fixpoint issubclass_fuel (n : nat) (c d : pyclass) : bool :=
  if decide (c = d) then true
  else match n with
       | O => false
       | S n' => match base c with
                 | Some b => issubclass_fuel n' b d
                 | None => false
                 end
       end.

(** The hierarchy above is four classes deep. *)
Definition issubclass (c d : pyclass) : bool := issubclass_fuel 4 c d.

(** An exception object: its class and its argument. *)
Record exn := Exn { exn_class : pyclass; exn_arg : pyval }.

(** [except (c1, c2, ...)] matches an instance of any listed class. *)
Definition isinstance (e : exn) (classes : list pyclass) : bool :=
  existsb (issubclass (exn_class e)) classes.

(** Result of an expression that touches no state: a value or a raise. *)
Inductive res (A : Type) :=
| Ok (a : A)
| Err (e : exn).
Arguments Ok {A} a.
Arguments Err {A} e.

(** ** Floating point: Python's [float] is IEEE 754 binary64 *)

Module PyFloat.

Definition prec : Z := 53.
Definition emax : Z := 1024.

Definition float := spec_float.

(** [float(z)], rounded to nearest even; a Python int too large for a
    double raises [OverflowError]. *)
Definition of_int (z : Z) : res float :=
  match binary_normalize prec emax z 0 false with
  | S754_infinity _ | S754_nan =>
      Err (Exn OverflowError (PStr "int too large to convert to float"))
  | x => Ok x
  end.

(** [a / b] on two ints: the quotient of the two integers rounded once to
    the nearest double, ties to even, as CPython's [long_true_divide]
    computes it for ints of any size; a quotient too large for a double
    raises [OverflowError]. *)
Definition truediv (a b : Z) : res float :=
  if b =? 0 then Err (Exn ZeroDivisionError (PStr "division by zero"))
  else if a =? 0 then Ok (S754_zero (b <? 0))
  else
    let '(mz, ez, lz) := SFdiv_core_binary prec emax (Z.abs a) 0 (Z.abs b) 0 in
    match binary_round_aux prec emax (xorb (a <? 0) (b <? 0)) mz ez lz with
    | S754_infinity _ | S754_nan =>
        Err (Exn OverflowError (PStr "integer division result too large for a float"))
    | x => Ok x
    end.

(** [n * x] with an int [n] and a float [x]: the int is converted first. *)
Definition mul_int (n : Z) (x : float) : res float :=
  match of_int n with
  | Ok y => Ok (SFmul prec emax y x)
  | Err e => Err e
  end.

(** [max(a, b)]: the builtin keeps its first argument unless a later one
    compares greater. *)
Definition max (a b : float) : float :=
  if SFltb a b then b else a.

(** [int(x)]: truncation toward zero; infinities and NaN raise. *)
Definition to_int (x : float) : res Z :=
  match x with
  | S754_zero _ => Ok 0
  | S754_finite s m e =>
      let mag := match e with
                 | Zneg p => Z.shiftr (Zpos m) (Zpos p)
                 | _ => Z.shiftl (Zpos m) e
                 end in
      Ok (if s then - mag else mag)
  | S754_infinity _ =>
      Err (Exn OverflowError (PStr "cannot convert float infinity to integer"))
  | S754_nan =>
      Err (Exn ValueError (PStr "cannot convert float NaN to integer"))
  end.

End PyFloat.

(** ** Pillow images *)

Definition rgb : Type := Z * Z * Z.

(** A decoded image: its size and the colour of every pixel. *)
Record image := Image { im_size : Z * Z; im_pixel : Z → Z → rgb }.

(** [Image.Dither]: the enumeration and its integer values. *)
Inductive Dither := NONE | ORDERED | RASTERIZE | FLOYDSTEINBERG.

Definition Dither_value (d : Dither) : Z :=
  match d with NONE => 0 | ORDERED => 1 | RASTERIZE => 2 | FLOYDSTEINBERG => 3 end.

(** [Image.Dither(v)]: an int that is no member's value raises [ValueError]. *)
Definition Image_Dither (v : pyval) : res Dither :=
  match v with
  | PInt 0 => Ok NONE
  | PInt 1 => Ok ORDERED
  | PInt 2 => Ok RASTERIZE
  | PInt 3 => Ok FLOYDSTEINBERG
  | _ => Err (Exn ValueError (PStr "is not a valid Dither"))
  end.

(** An image in mode "P": one byte per pixel, an index into the palette
    the image carries. *)
Record pimage := PImage {
  p_size : Z * Z;
  p_index : Z → Z → Byte.byte;
  p_palette : list Z
}.

(** The two pixel kernels of Pillow's C core that the script calls and
    whose code is not part of the repository: the resampling filter behind
    [Image.resize] and the colour matching (with or without error
    diffusion) behind [Image.quantize].  Whatever they compute, [resize]
    returns an image of the requested size and [quantize] an image of
    8-bit palette indices. *)
Class Pillow := {
  resample : image → Z * Z → Z → Z → rgb;
  match_colours : Dither → list Z → image → Z → Z → Byte.byte
}.

(** [Image.new('RGB', size, color)]. *)
Definition Image_new_RGB (size : Z * Z) (color : rgb) : image :=
  Image size (λ _ _, color).

(** [im.resize(size)] on decoded pixels; Pillow refuses a size that is
    not positive. *)
Definition Image_resize `{Pillow} (im : image) (size : Z * Z) : res image :=
  if (0 <? size.1) && (0 <? size.2)
  then Ok (Image size (resample im size))
  else Err (Exn ValueError (PStr "height and width must be > 0")).

(** [canvas.paste(im, (left, top))]: the pixels of [im] replace those of
    the canvas in the box whose upper left corner is [box]; what
    falls outside the canvas is clipped. *)
Definition Image_paste (canvas im : image) (box : Z * Z) : image :=
  Image (im_size canvas)
        (λ x y, if (box.1 <=? x) && (x <? box.1 + (im_size im).1)
                   && (box.2 <=? y) && (y <? box.2 + (im_size im).2)
                then im_pixel im (x - box.1) (y - box.2)
                else im_pixel canvas x y).

(** [Image.new("P", size)] followed by [putpalette(data)]: [data] is the
    flat sequence r0, g0, b0, r1, g1, b1, ... *)
Definition Image_new_P_putpalette (size : Z * Z) (data : list Z) : pimage :=
  PImage size (λ _ _, Byte.x00) data.

(** Colour number [i] of a flat palette. *)
Definition palette_entry (data : list Z) (i : nat) : rgb :=
  (nth (3 * i) data 0, nth (3 * i + 1) data 0, nth (3 * i + 2) data 0).

(** [im.quantize(dither=d, palette=pal)]: every pixel becomes an index
    into the palette of [pal], which the result carries. *)
Definition Image_quantize `{Pillow} (im : image) (d : Dither) (pal : pimage) : pimage :=
  PImage (im_size im) (match_colours d (p_palette pal) im) (p_palette pal).

(** [pim.convert('RGB')]: every index is replaced by its palette colour. *)
Definition Image_convert_RGB (pim : pimage) : image :=
  Image (p_size pim)
        (λ x y, palette_entry (p_palette pim) (N.to_nat (Byte.to_N (p_index pim x y)))).

(** ** The world: files, directories and the standard output *)

(** What a regular file holds, as far as Pillow is concerned.  Pillow
    reads a file in steps: [Image.open] reads the header, [verify()]
    checks what the format lets it check without decoding (the chunk
    checksums of a PNG; nothing at all for a JPEG), and the pixel data
    are decoded only when they are needed, by [load()]. *)
Inductive file_data :=
| WellFormed (im : image)   (* opens, verifies and loads *)
| ZeroByte                  (* empty: no decoder identifies it *)
| WrongFormat               (* not an image: no decoder identifies it *)
| Corrupt (im : image)      (* the header is read, [verify()] raises *)
| Truncated (im : image)    (* the header is read, [verify()] finds nothing,
                               the pixel data stop short: [load()] raises *)
| Unopenable (e : exn).     (* [Image.open] raises [e] for another reason *)

(** Why the system refuses a path before it reaches a file or a
    directory. *)
Inductive access_error :=
| NameTooLong          (* ENAMETOOLONG *)
| SymlinkLoop          (* ELOOP *)
| NoSearchPermission   (* EACCES on a directory of the path *)
| EmbeddedNull.        (* a NUL byte in the name *)

(** The exception a system call raises for it: [OSError], its subclass
    [PermissionError], or [ValueError] for the NUL byte, which Python
    finds before it calls the system. *)
Definition access_exn (a : access_error) (path : string) : exn :=
  match a with
  | NameTooLong => Exn OSError (PStr "File name too long")
  | SymlinkLoop => Exn OSError (PStr "Too many levels of symbolic links")
  | NoSearchPermission => Exn PermissionError (PStr path)
  | EmbeddedNull => Exn ValueError (PStr "embedded null byte")
  end.

(** What a path leads to. *)
Inductive node :=
| File (d : file_data)
| Dir (entries : list string) (listable : bool)
| Inaccessible (a : access_error).

(** A piece of a printed line: literal text or a formatted value. *)
Inductive frag :=
| Lit (s : string)
| FVal (v : pyval)
| FInt (z : Z)
| FFloat3 (x : PyFloat.float)   (* the format [:0.3f] *)
| FDither (d : Dither).

(** The file system gives for every path, as the script spells it, what
    the path leads to; a path without an entry leads to nothing.  Two
    spellings of one file (a doubled slash, a symbolic link) are two
    paths here and nothing relates them: what the properties below say
    of the files is said of the saves the script performs and of the
    paths it performs them at. *)
Record world := World {
  fs : gmap string node;
  stdout : list (list frag)
}.

(** ** State and exception monad *)

Inductive outcome (A : Type) :=
| Return (a : A) (w : world)
| Raise (e : exn) (w : world).
Arguments Return {A} a w.
Arguments Raise {A} e w.

Definition M (A : Type) : Type := world → outcome A.

#[global] Instance M_ret : MRet M := λ A a w, Return a w.

#[global] Instance M_bind : MBind M := λ A B f m w,
  match m w with
  | Return a w' => f a w'
  | Raise e w' => Raise e w'
  end.

Definition raise {A} (e : exn) : M A := λ w, Raise e w.

Definition lift {A} (r : res A) : M A :=
  match r with
  | Ok a => mret a
  | Err e => raise e
  end.

(** [try: body except classes1: handler1 except classes2: handler2 ...]:
    the first clause that lists a class of the exception handles it. *)
Fixpoint handle {A} (clauses : list (list pyclass * (exn → M A))) (e : exn) : M A :=
  match clauses with
  | [] => raise e
  | (classes, handler) :: rest =>
      if isinstance e classes then handler e else handle rest e
  end.

Definition try_except {A} (body : M A) (clauses : list (list pyclass * (exn → M A))) : M A :=
  λ w, match body w with
       | Return a w' => Return a w'
       | Raise e w' => handle clauses e w'
       end.

(** A list comprehension [[x for x in l if p(x)]] whose test reads the
    world. *)
Fixpoint filterM {A} (p : A → M bool) (l : list A) : M (list A) :=
  match l with
  | [] => mret []
  | x :: l' =>
      b ← p x;
      rest ← filterM p l';
      mret (if (b : bool) then x :: rest else rest)
  end.

Definition print (line : list frag) : M unit :=
  λ w, Return tt (World (fs w) (stdout w ++ [line])).

(** ** [os] and [os.path] (POSIX) *)

(** [os.path.isdir(path)]: [os.stat] and a test of the mode; an
    [OSError] or [ValueError] of [os.stat] is caught and gives [False]. *)
Definition os_path_isdir (path : string) : M bool :=
  λ w, Return (match fs w !! path with Some (Dir _ _) => true | _ => false end) w.

Definition is_regular_file (w : world) (path : string) : bool :=
  match fs w !! path with Some (File _) => true | _ => false end.

(** [os.path.isfile(path)], with the same [try] around [os.stat]. *)
Definition os_path_isfile (path : string) : M bool :=
  λ w, Return (is_regular_file w path) w.

Definition startswith_slash (s : string) : bool :=
  match s with
  | String c _ => Ascii.eqb c "/"%char
  | EmptyString => false
  end.

Fixpoint endswith_slash (s : string) : bool :=
  match s with
  | EmptyString => false
  | String c EmptyString => Ascii.eqb c "/"%char
  | String _ s' => endswith_slash s'
  end.

(** [os.path.join(a, b)]. *)
Definition os_path_join (a b : string) : string :=
  if startswith_slash b then b
  else if String.eqb a "" || endswith_slash a then a +:+ b
  else a +:+ "/" +:+ b.

(** [os.listdir(path)]. *)
Definition os_listdir (path : string) : M (list string) :=
  λ w, match fs w !! path with
       | Some (Dir entries true) => Return entries w
       | Some (Dir _ false) => Raise (Exn PermissionError (PStr path)) w
       | Some (File _) => Raise (Exn NotADirectoryError (PStr path)) w
       | Some (Inaccessible a) => Raise (access_exn a path) w
       | None => Raise (Exn FileNotFoundError (PStr path)) w
       end.

(** [s.rfind(c)]: the index of the last [c] in [s], counting from [i] for
    the first character, or -1. *)
Fixpoint rfind_from (c : ascii) (s : string) (i : Z) : Z :=
  match s with
  | EmptyString => -1
  | String a s' =>
      let r := rfind_from c s' (i + 1) in
      if 0 <=? r then r else if Ascii.eqb a c then i else -1
  end.

Definition rfind (c : ascii) (s : string) : Z := rfind_from c s 0.

(** The loop of [genericpath._splitext] that skips the leading dots of the
    file name: is there a character other than a dot among the [n]
    characters from [filenameIndex] on? *)
Fixpoint has_non_dot (p : string) (filenameIndex : nat) (n : nat) : bool :=
  match n with
  | O => false
  | S n' =>
      match String.get filenameIndex p with
      | Some c => if Ascii.eqb c "."%char then has_non_dot p (S filenameIndex) n' else true
      | None => true
      end
  end.

(** [os.path.splitext(p)]. *)
Definition os_path_splitext (p : string) : string * string :=
  let sepIndex := rfind "/"%char p in
  let dotIndex := rfind "."%char p in
  if (sepIndex <? dotIndex)
     && has_non_dot p (Z.to_nat (sepIndex + 1)) (Z.to_nat (dotIndex - (sepIndex + 1)))
  then (String.substring 0 (Z.to_nat dotIndex) p,
        String.substring (Z.to_nat dotIndex) (String.length p - Z.to_nat dotIndex) p)
  else (p, "").

(** ** Pillow and the file system *)

(** What [Image.open] hands back: the image the header announces (its
    pixels are what a complete file decodes to), whether [verify()] will
    find the file broken, and whether [load()] will find the pixel data
    cut short. *)
Record opened := Opened { op_image : image; op_broken : bool; op_truncated : bool }.

(** [Image.open(filepath)]. *)
Definition Image_open (filepath : string) : M opened :=
  λ w, match fs w !! filepath with
       | Some (File (WellFormed im)) => Return (Opened im false false) w
       | Some (File (Corrupt im)) => Return (Opened im true false) w
       | Some (File (Truncated im)) => Return (Opened im false true) w
       | Some (File ZeroByte) | Some (File WrongFormat) =>
           Raise (Exn UnidentifiedImageError (PStr "cannot identify image file")) w
       | Some (File (Unopenable e)) => Raise e w
       | Some (Dir _ _) => Raise (Exn IsADirectoryError (PStr filepath)) w
       | Some (Inaccessible a) => Raise (access_exn a filepath) w
       | None => Raise (Exn FileNotFoundError (PStr filepath)) w
       end.

(** [img.load()], which Pillow calls when the pixels are first needed:
    the decoded image, or [OSError] for data that stop short. *)
Definition Image_load (img : opened) : res image :=
  if op_truncated img then Err (Exn OSError (PStr "image file is truncated"))
  else Ok (op_image img).

(** [img.resize(size)] on an image as [Image.open] returned it:
    [resize] begins with [self.load()]. *)
Definition ImageFile_resize `{Pillow} (img : opened) (size : Z * Z) : res image :=
  match Image_load img with
  | Ok im => Image_resize im size
  | Err e => Err e
  end.

(** [img.verify()]: raises for what the format lets it check, decodes
    nothing. *)
Definition Image_verify (img : opened) : M unit :=
  if op_broken img then raise (Exn SyntaxError (PStr "broken image file"))
  else mret tt.

(** [im.save(filename)]: the path leads to a file that holds the image
    afterwards; a path that leads to a directory, or that the system
    refuses, cannot be written. *)
Definition Image_save (im : image) (filename : string) : M unit :=
  λ w, match fs w !! filename with
       | Some (Dir _ _) => Raise (Exn IsADirectoryError (PStr filename)) w
       | Some (Inaccessible a) => Raise (access_exn a filename) w
       | _ => Return tt (World (<[filename := File (WellFormed im)]> (fs w)) (stdout w))
       end.

(** ** [str.lower] and [str.endswith] *)

(** [c.lower()] for one byte of a path: the letters A to Z become a to z,
    every other byte stays.  On text outside ASCII Python's [lower]
    changes more, but it produces none of the characters [.], [b], [m],
    [p] from any other character than these and their capitals, so a
    test of the lowered path against ['.bmp'] comes out the same. *)
Definition ascii_lower (c : ascii) : ascii :=
  let n := nat_of_ascii c in
  if ((65 <=? n) && (n <=? 90))%nat then ascii_of_nat (n + 32) else c.

(** [s.lower()]. *)
Fixpoint str_lower (s : string) : string :=
  match s with
  | EmptyString => EmptyString
  | String c s' => String (ascii_lower c) (str_lower s')
  end.

(** [s.endswith(suffix)]. *)
Fixpoint endswith (s suffix : string) : bool :=
  String.eqb s suffix
  || match s with
     | String _ s' => endswith s' suffix
     | EmptyString => false
     end.

(** ** [convert.py]: the functions *)

#[global] Instance res_ret : MRet res := λ A a, Ok a.

#[global] Instance res_bind : MBind res := λ A B f r,
  match r with
  | Ok a => f a
  | Err e => Err e
  end.

Definition is_directory (path : string) : M bool := os_path_isdir path.

(** Lines 23 to 25; no line of the script calls it. *)
Definition is_bmp_image (filepath : string) : bool :=
  endswith (str_lower filepath) ".bmp".

(** The [with] block of [is_valid_image]: open the file, verify it. *)
Definition open_and_verify (filepath : string) : M unit :=
  img ← Image_open filepath;
  Image_verify img.

Definition is_valid_image (filepath : string) : M bool :=
  try_except
    (open_and_verify filepath;;
     mret true)
    [([IOError; SyntaxError], λ _, mret false)].

Definition list_filenames (directory : string) : M (list string) :=
  try_except
    (filenames ← os_listdir directory;
     filenames ← filterM (λ f, os_path_isfile (os_path_join directory f)) filenames;
     mret filenames)
    [([FileNotFoundError],
      λ _, print [Lit "Error: The directory '"; FVal (PStr directory);
                  Lit "' was not found."];;
           mret []);
     ([PermissionError],
      λ _, print [Lit "Error: Permission denied to access '"; FVal (PStr directory);
                  Lit "'."];;
           mret [])].

(** Python's [t * n] on a tuple: [n] copies of [t] end to end. *)
Definition tuple_mul (t : list Z) (n : nat) : list Z := concat (replicate n t).

(** The argument of [putpalette]: seven colours, then 249 times black. *)
Definition palette_data : list Z :=
  [0;0;0;  255;255;255;  0;255;0;  0;0;255;  255;0;0;  255;255;0;  255;128;0]
  ++ tuple_mul [0;0;0] 249.

(** Which arm of [if display_orientation:] runs. *)
Inductive size_branch := ExplicitOrientation | AutoOrientation.

Definition orientation_branch (display_orientation : pyval) : size_branch :=
  if truthy display_orientation then ExplicitOrientation else AutoOrientation.

(** [target_width, target_height], lines 70 to 80. *)
Definition target_size (display_orientation : pyval) (width height : Z) : Z * Z :=
  match orientation_branch display_orientation with
  | ExplicitOrientation =>
      if py_eq_str display_orientation "landscape" then (800, 480) else (480, 800)
  | AutoOrientation =>
      if width >? height then (800, 480) else (480, 800)
  end.

(** [scale_ratio = max(target_width / width, target_height / height)]. *)
Definition scale_ratio (target_width target_height width height : Z) : res PyFloat.float :=
  a ← PyFloat.truediv target_width width;
  b ← PyFloat.truediv target_height height;
  mret (PyFloat.max a b).

(** [int(n * scale_ratio)]. *)
Definition scaled (n : Z) (scale_ratio : PyFloat.float) : res Z :=
  x ← PyFloat.mul_int n scale_ratio;
  PyFloat.to_int x.

(** [resized_width, resized_height], lines 89 and 90. *)
Definition resized_size (width height : Z) (scale_ratio : PyFloat.float) : res (Z * Z) :=
  resized_width ← scaled width scale_ratio;
  resized_height ← scaled height scale_ratio;
  mret (resized_width, resized_height).

(** [left, top], lines 97 and 98; [//] rounds toward minus infinity, as
    [Z.div] does for a positive divisor. *)
Definition paste_offset (target_width target_height resized_width resized_height : Z) : Z * Z :=
  ((target_width - resized_width) `div` 2, (target_height - resized_height) `div` 2).

(** [output_filename], lines 109 to 111. *)
Definition output_filename_of (input_filename : string) (display_orientation : pyval) : string :=
  let output_filename := (os_path_splitext input_filename).1 +:+ ".8b6.bmp" in
  if py_eq_str display_orientation "landscape"
  then (os_path_splitext input_filename).1 +:+ ".6b8.bmp"
  else output_filename.

(** The line printed under [if verbose:]. *)
Definition print_verbose (input_filename : string) (width height target_width target_height : Z)
  : M unit :=
  r ← lift (PyFloat.truediv height width);
  t ← lift (PyFloat.truediv target_height target_width);
  print [FVal (PStr input_filename); Lit " "; FInt width; Lit " by "; FInt height;
         Lit " ("; FFloat3 r; Lit "), Output BMP "; FInt target_width; Lit " by ";
         FInt target_height; Lit ", ("; FFloat3 t; Lit ")"].

(** Lines 95 to 106: the white canvas, the centred paste, the palette
    image and the quantization back to RGB. *)
Definition compose_and_quantize `{Pillow} (output_image : image)
    (target_width target_height resized_width resized_height : Z)
    (display_dither : Dither) : image :=
  let resized_image := Image_new_RGB (target_width, target_height) (255, 255, 255) in
  let resized_image :=
    Image_paste resized_image output_image
      (paste_offset target_width target_height resized_width resized_height) in
  let pal_image := Image_new_P_putpalette (1, 1) palette_data in
  Image_convert_RGB (Image_quantize resized_image display_dither pal_image).

Definition convert_to_bmp `{Pillow} (input_filename : string) (display_orientation : pyval)
    (display_dither : Dither) (verbose : bool) : M bool :=
  exists_ ← os_path_isfile input_filename;
  if negb (exists_ : bool) then
    print [Lit "Error: file "; FVal (PStr input_filename); Lit " does not exist"];;
    mret false
  else
    valid ← is_valid_image input_filename;
    if negb (valid : bool) then mret false
    else
      input_image ← Image_open input_filename;
      let '(width, height) := im_size (op_image input_image) in
      let '(target_width, target_height) := target_size display_orientation width height in
      (if verbose
       then print_verbose input_filename width height target_width target_height
       else mret tt);;
      scale_ratio ← lift (scale_ratio target_width target_height width height);
      '(resized_width, resized_height) ← lift (resized_size width height scale_ratio);
      output_image ← lift (ImageFile_resize input_image (resized_width, resized_height));
      let quantized_image :=
        compose_and_quantize output_image target_width target_height
                             resized_width resized_height display_dither in
      Image_save quantized_image (output_filename_of input_filename display_orientation);;
      mret true.

(** A simple instance of the two kernels, used to run the pipeline on
    concrete files: nearest-neighbour resampling and, for every dither
    mode, the nearest palette colour in squared RGB distance. *)
Definition colour_distance (a b : rgb) : Z :=
  let '(r1, g1, b1) := a in
  let '(r2, g2, b2) := b in
  (r1 - r2) * (r1 - r2) + (g1 - g2) * (g1 - g2) + (b1 - b2) * (b1 - b2).

Definition nearest_index (data : list Z) (c : rgb) : Byte.byte :=
  let best :=
    foldl (λ best i, if colour_distance c (palette_entry data i)
                        <? colour_distance c (palette_entry data best)
                     then i else best)
          O (seq 1 (length data / 3 - 1)) in
  match Byte.of_N (N.of_nat best) with
  | Some b => b
  | None => Byte.x00
  end.

Definition nearest_kernels : Pillow := {|
  resample im size x y :=
    im_pixel im (x * (im_size im).1 `div` size.1) (y * (im_size im).2 `div` size.2);
  match_colours _ data im x y := nearest_index data (im_pixel im x y)
|}.

(** ** [argparse] *)

(** [ArgumentParser.parse_args] as CPython 3.11 runs it for a parser with
    the prefix character [-], abbreviations allowed, one help option,
    one positional that takes one word and options that take at most one
    value ([nargs='?']): a first pass classifies every word of the
    command line, a second pass consumes the words from left to right.
    Every error ends in [sys.exit(2)], the help in [sys.exit(0)].  The
    words are the bytes the system hands over, read as UTF-8. *)
Module Argparse.

(** An argument as [add_argument] registers it.  A positional has no
    option strings; [optional_value] is [nargs='?']. *)
Record action := Action {
  option_strings : list string;
  dest : string;
  optional_value : bool;
  const : pyval;
  default : pyval;
  type_ : string → res pyval;
  choices : option (list pyval)
}.

(** [parser.error]: usage on stderr, then [sys.exit(2)]. *)
Definition error {A} : M A := raise (Exn SystemExit (PInt 2)).

(** [type=str], [type=bool] and [type=int]. *)
Definition type_str (s : string) : res pyval := Ok (PStr s).

Definition type_bool (s : string) : res pyval := Ok (PBool (negb (String.eqb s ""))).

(** The code points of a word of the command line.  The words reach
    the script as bytes and Python decodes them as UTF-8; [None] stands
    for bytes that are no UTF-8, which Python keeps as lone surrogates:
    they are neither digits nor white space. *)
Definition byte_value (c : ascii) : Z := Z.of_nat (nat_of_ascii c).

Definition continuation (n : Z) : bool := (128 <=? n) && (n <=? 191).

Fixpoint utf8_decode (s : string) : option (list Z) :=
  match s with
  | EmptyString => Some []
  | String b0 s1 =>
      let n0 := byte_value b0 in
      if n0 <? 128 then cons n0 <$> utf8_decode s1
      else
        match s1 with
        | String b1 s2 =>
            let n1 := byte_value b1 in
            if negb (continuation n1) then None
            else if (192 <=? n0) && (n0 <? 224) then
              let cp := (n0 - 192) * 64 + (n1 - 128) in
              if 128 <=? cp then cons cp <$> utf8_decode s2 else None
            else
              match s2 with
              | String b2 s3 =>
                  let n2 := byte_value b2 in
                  if negb (continuation n2) then None
                  else if (224 <=? n0) && (n0 <? 240) then
                    let cp := ((n0 - 224) * 64 + (n1 - 128)) * 64 + (n2 - 128) in
                    if (2048 <=? cp) && negb ((55296 <=? cp) && (cp <=? 57343))
                    then cons cp <$> utf8_decode s3
                    else None
                  else
                    match s3 with
                    | String b3 s4 =>
                        let n3 := byte_value b3 in
                        if negb (continuation n3) then None
                        else if (240 <=? n0) && (n0 <? 248) then
                          let cp := (((n0 - 240) * 64 + (n1 - 128)) * 64 + (n2 - 128)) * 64
                                    + (n3 - 128) in
                          if (65536 <=? cp) && (cp <=? 1114111)
                          then cons cp <$> utf8_decode s4
                          else None
                        else None
                    | EmptyString => None
                    end
              | EmptyString => None
              end
        | EmptyString => None
        end
  end.

(** The decimal digits of Unicode 14.0, the version of CPython 3.11,
    come in runs of ten, zero to nine; these are the zeros. *)
Definition decimal_zeros : list Z :=
  [48; 1632; 1776; 1984; 2406; 2534; 2662; 2790; 2918; 3046; 3174; 3302; 3430; 3558;
   3664; 3792; 3872; 4160; 4240; 6112; 6160; 6470; 6608; 6784; 6800; 6992; 7088; 7232;
   7248; 42528; 43216; 43264; 43472; 43504; 43600; 44016; 65296; 66720; 68912; 69734;
   69872; 69942; 70096; 70384; 70736; 70864; 71248; 71360; 71472; 71904; 72016; 72784;
   73040; 73120; 92768; 92864; 93008; 120782; 120792; 120802; 120812; 120822; 123200;
   123632; 125264; 130032].

(** [unicodedata.decimal]: the value of a decimal digit. *)
Definition decimal_value (cp : Z) : option Z :=
  (λ zero, cp - zero) <$> List.find (λ zero, (zero <=? cp) && (cp <=? zero + 9)) decimal_zeros.

(** The white space of [str.isspace] from code point 127 on. *)
Definition unicode_spaces : list Z :=
  [133; 160; 5760; 8192; 8193; 8194; 8195; 8196; 8197; 8198; 8199; 8200; 8201; 8202;
   8232; 8233; 8239; 8287; 12288].

(** What [int] does to its string before it reads it: code points below
    127 stay, white space becomes a blank, a decimal digit becomes its
    ASCII digit; any other character makes the string invalid. *)
Fixpoint to_ascii_digits (cps : list Z) : option (list Z) :=
  match cps with
  | [] => Some []
  | cp :: rest =>
      c ← (if cp <? 127 then Some cp
           else if existsb (Z.eqb cp) unicode_spaces then Some 32
           else (λ d, 48 + d) <$> decimal_value cp);
      cons c <$> to_ascii_digits rest
  end.

(** White space for the reader of [int]: tab to carriage return, and
    blank. *)
Definition is_space (c : Z) : bool := (9 <=? c) && (c <=? 13) || (c =? 32).

Definition digit_value (c : Z) : option Z :=
  if (48 <=? c) && (c <=? 57) then Some (c - 48) else None.

Fixpoint lstrip (l : list Z) : list Z :=
  match l with
  | c :: l' => if is_space c then lstrip l' else l
  | [] => l
  end.

(** [sys.get_int_max_str_digits()], as CPython 3.11 sets it. *)
Definition int_max_str_digits : nat := 4300.

(** Decimal digits with single underscores between them, up to trailing
    white space; [after_digit] tells whether the previous character was
    a digit, [count] how many digits have been read. *)
Fixpoint digits (l : list Z) (acc : Z) (count : nat) (after_digit : bool) : option Z :=
  match l with
  | [] => if after_digit && (count <=? int_max_str_digits)%nat then Some acc else None
  | c :: l' =>
      match digit_value c with
      | Some d => digits l' (10 * acc + d) (S count) true
      | None =>
          if after_digit && (c =? 95) then
            match l' with
            | c' :: _ =>
                match digit_value c' with
                | Some _ => digits l' acc count false
                | None => None
                end
            | [] => None
            end
          else if after_digit && forallb is_space l && (count <=? int_max_str_digits)%nat
          then Some acc
          else None
      end
  end.

(** [int(s)] on a string, base 10. *)
Definition py_int (s : string) : option Z :=
  cps ← utf8_decode s;
  l ← to_ascii_digits cps;
  match lstrip l with
  | 45 :: l' => Z.opp <$> digits l' 0 0 false
  | 43 :: l' => digits l' 0 0 false
  | l' => digits l' 0 0 false
  end.

Definition type_int (s : string) : res pyval :=
  match py_int s with
  | Some z => Ok (PInt z)
  | None => Err (Exn ValueError (PStr "invalid literal for int() with base 10"))
  end.

(** A command-line word after the first pass of [parse_known_args]. *)
Inductive token :=
| TPositional (s : string)
| TTerminator
| TOption (option_string : string) (explicit_arg : option string)
| TUnknown (s : string).

(** [s.split('=', 1)] when [s] holds an equals sign. *)
Fixpoint split_equals (s : string) : option (string * string) :=
  match s with
  | EmptyString => None
  | String c s' =>
      if Ascii.eqb c "="%char then Some ("", s')
      else '(a, b) ← split_equals s'; Some (String c a, b)
  end.

(** [s] without the newline it may end with: [$] also matches before a
    final newline. *)
Fixpoint before_final_newline (l : list Z) : list Z :=
  match l with
  | [] => []
  | [10] => []
  | c :: l' => c :: before_final_newline l'
  end.

Definition is_decimal (cp : Z) : bool := bool_decide (is_Some (decimal_value cp)).

Fixpoint drop_decimals (l : list Z) : list Z :=
  match l with
  | c :: l' => if is_decimal c then drop_decimals l' else l
  | [] => l
  end.

Definition decimals (l : list Z) : bool :=
  match l with
  | [] => false
  | _ => forallb is_decimal l
  end.

(** The pattern [^-\d+$|^-\d*\.\d+$] of [_negative_number_matcher];
    [\d] is any decimal digit. *)
Definition negative_number (s : string) : bool :=
  match utf8_decode s with
  | Some (45 :: l) =>
      let l := before_final_newline l in
      decimals l
      || match drop_decimals l with
         | 46 :: frac => decimals frac
         | _ => false
         end
  | _ => false
  end.

Fixpoint contains_space (s : string) : bool :=
  match s with
  | String c s' => Ascii.eqb c " "%char || contains_space s'
  | EmptyString => false
  end.

Section Parser.

(** The option strings of the parser, [-h] and [--help] included. *)
Variable known : list string.

(** [_get_option_tuples]: the abbreviations of a long option and the
    short option followed by its argument. *)
Definition get_option_tuples (arg_string : string) : list (string * option string) :=
  match arg_string with
  | String _ (String "-"%char _) =>
      let '(option_prefix, explicit_arg) :=
        match split_equals arg_string with
        | Some (a, b) => (a, Some b)
        | None => (arg_string, None)
        end in
      omap (λ o, if String.prefix option_prefix o then Some (o, explicit_arg) else None)
           known
  | String _ (String _ _) =>
      let short_option_prefix := String.substring 0 2 arg_string in
      let short_explicit_arg := String.substring 2 (String.length arg_string - 2) arg_string in
      omap (λ o, if String.eqb o short_option_prefix then Some (o, Some short_explicit_arg)
                 else if String.prefix arg_string o then Some (o, None)
                 else None)
           known
  | _ => []
  end.

(** [_parse_optional]: [None] is the ambiguous abbreviation, an error. *)
Definition parse_optional (arg_string : string) : option token :=
  match arg_string with
  | EmptyString => Some (TPositional arg_string)
  | String c rest =>
      if negb (Ascii.eqb c "-"%char) then Some (TPositional arg_string)
      else if bool_decide (arg_string ∈ known) then Some (TOption arg_string None)
      else if String.eqb rest "" then Some (TPositional arg_string)
      else
        let with_equals :=
          match split_equals arg_string with
          | Some (o, e) => if bool_decide (o ∈ known) then Some (TOption o (Some e)) else None
          | None => None
          end in
        match with_equals with
        | Some t => Some t
        | None =>
            match get_option_tuples arg_string with
            | _ :: _ :: _ => None
            | [(o, e)] => Some (TOption o e)
            | [] =>
                if negative_number arg_string then Some (TPositional arg_string)
                else if contains_space arg_string then Some (TPositional arg_string)
                else Some (TUnknown arg_string)
            end
        end
  end.

(** First pass: every word is classified; all words after the first
    [--] are positionals. *)
Fixpoint classify (arg_strings : list string) : option (list token) :=
  match arg_strings with
  | [] => Some []
  | arg_string :: rest =>
      if String.eqb arg_string "--" then Some (TTerminator :: map TPositional rest)
      else
        t ← parse_optional arg_string;
        ts ← classify rest;
        Some (t :: ts)
  end.

End Parser.

(** The message of [print_help], not rendered. *)
Definition help_message : list frag :=
  [Lit "usage: "; Lit "[-h] [--orient] [--dither] [--verbose] image_file"].

Fixpoint all_h (s : string) : bool :=
  match s with
  | String c s' => Ascii.eqb c "h"%char && all_h s'
  | EmptyString => true
  end.

(** [-h] and [--help]: print the help and [sys.exit(0)].  An explicit
    argument is an error, except that [-hh...] is read as [-h] repeated. *)
Definition take_help {A} (option_string : string) (explicit_arg : option string) : M A :=
  match explicit_arg with
  | None => print help_message;; raise (Exn SystemExit (PInt 0))
  | Some e =>
      if String.eqb option_string "-h" && negb (String.eqb e "") && all_h e
      then print help_message;; raise (Exn SystemExit (PInt 0))
      else error
  end.

(** [_get_value] then [_check_value]: the [type] conversion, whose
    failure is a usage error, and the membership in [choices]. *)
Definition get_value (a : action) (arg_string : string) : M pyval :=
  match type_ a arg_string with
  | Ok v =>
      match choices a with
      | Some cs => if existsb (py_eq v) cs then mret v else error
      | None => mret v
      end
  | Err _ => error
  end.

(** The value stored when an option with [nargs='?'] has no argument:
    [const], converted and checked when it is a string. *)
Definition const_value (a : action) : M pyval :=
  match const a with
  | PStr s => get_value a s
  | v => mret v
  end.

(** Parsing state: the namespace, the positionals still expected, the
    destinations already stored and the words nobody took. *)
Record state := State {
  namespace : gmap string pyval;
  positionals : list action;
  seen : list string;
  extras : list string
}.

Definition store (a : action) (v : pyval) (st : state) : state :=
  State (<[dest a := v]> (namespace st)) (positionals st) (dest a :: seen st) (extras st).

Definition find_action (actions : list action) (option_string : string) : option action :=
  List.find (λ a, bool_decide (option_string ∈ option_strings a)) actions.

(** The words after a positional that the positional takes with it:
    the [--] that follows it directly. *)
Definition after_positional (rest : list token) : list token :=
  match rest with
  | TTerminator :: rest' => rest'
  | _ => rest
  end.

(** Second pass: the words are consumed from left to right.  A
    positional takes a [--] next to its word with it and drops it; an
    option never reaches across a [--], and a [--] given to it as
    [--option=--] is dropped, which leaves the option without a value; a
    [--] that no positional takes is a word nobody took. *)
Fixpoint consume (actions : list action) (tokens : list token) (st : state) : M state :=
  match tokens with
  | [] => mret st
  | TTerminator :: rest =>
      match positionals st, rest with
      | _ :: _, TPositional _ :: _ => consume actions rest st
      | _, _ =>
          consume actions rest
                  (State (namespace st) (positionals st) (seen st) (extras st ++ ["--"]))
      end
  | TUnknown s :: rest =>
      consume actions rest
              (State (namespace st) (positionals st) (seen st) (extras st ++ [s]))
  | TPositional s :: rest =>
      match positionals st with
      | a :: positionals' =>
          v ← get_value a s;
          consume actions (after_positional rest)
                  (State (<[dest a := v]> (namespace st)) positionals'
                         (dest a :: seen st) (extras st))
      | [] =>
          consume actions rest
                  (State (namespace st) [] (seen st) (extras st ++ [s]))
      end
  | TOption o explicit_arg :: rest =>
      match find_action actions o with
      | None => take_help o explicit_arg
      | Some a =>
          match explicit_arg with
          | Some e =>
              v ← (if String.eqb e "--" && optional_value a then const_value a
                   else get_value a e);
              consume actions rest (store a v st)
          | None =>
              match rest with
              | TPositional s :: rest' =>
                  v ← get_value a s; consume actions rest' (store a v st)
              | _ =>
                  if optional_value a
                  then v ← const_value a; consume actions rest (store a v st)
                  else error
              end
          end
      end
  end.

(** Attributes set before parsing: every destination gets its default. *)
Definition initial_namespace (actions : list action) : gmap string pyval :=
  foldl (λ ns a, <[dest a := default a]> ns) ∅ actions.

(** A string default of an argument that was not given goes through
    [type] at the end. *)
Fixpoint convert_defaults (actions : list action) (seen : list string)
    (ns : gmap string pyval) : M (gmap string pyval) :=
  match actions with
  | [] => mret ns
  | a :: rest =>
      match default a with
      | PStr d =>
          if bool_decide (dest a ∈ seen) then convert_defaults rest seen ns
          else
            match type_ a d with
            | Ok v => convert_defaults rest seen (<[dest a := v]> ns)
            | Err _ => error
            end
      | _ => convert_defaults rest seen ns
      end
  end.

(** [parser.parse_args()] on the words after the program name. *)
Definition parse_args (actions : list action) (arg_strings : list string)
  : M (gmap string pyval) :=
  let known := (["-h"; "--help"] ++ concat (map option_strings actions))%list in
  match classify known arg_strings with
  | None => error
  | Some tokens =>
      let positional_actions :=
        List.filter (λ a, bool_decide (option_strings a = [])) actions in
      st ← consume actions tokens
             (State (initial_namespace actions) positional_actions [] []);
      ns ← convert_defaults actions (seen st) (namespace st);
      match positionals st, extras st with
      | [], [] => mret ns
      | _, _ => error
      end
  end.

End Argparse.

(** [getattr(args, name)] on the parsed namespace. *)
Definition getattr (args : gmap string pyval) (name : string) : M pyval :=
  match args !! name with
  | Some v => mret v
  | None =>
      raise (Exn AttributeError
                 (PStr ("'Namespace' object has no attribute '" +:+ name +:+ "'")))
  end.

(** ** [convert.py]: the module top level *)

(** Lines 118 to 123: the four [add_argument] calls. *)
Definition image_file_argument : Argparse.action :=
  Argparse.Action [] "image_file" false PNone PNone Argparse.type_str None.

Definition orient_argument : Argparse.action :=
  Argparse.Action ["--orient"] "orient" true (PStr "portrait") (PStr "portrait")
                  Argparse.type_str (Some [PStr "landscape"; PStr "portrait"]).

Definition dither_argument : Argparse.action :=
  Argparse.Action ["--dither"] "dither" true
                  (PInt (Dither_value FLOYDSTEINBERG)) (PInt (Dither_value FLOYDSTEINBERG))
                  Argparse.type_int
                  (Some [PInt (Dither_value NONE); PInt (Dither_value FLOYDSTEINBERG)]).

Definition verbose_argument : Argparse.action :=
  Argparse.Action ["--verbose"] "verbose" true (PBool false) (PBool false)
                  Argparse.type_bool None.

Definition parser : list Argparse.action :=
  [image_file_argument; orient_argument; dither_argument; verbose_argument].

(** A path argument must be a string. *)
Definition as_path (v : pyval) : M string :=
  match v with
  | PStr s => mret s
  | _ => raise (Exn TypeError (PStr "expected str, bytes or os.PathLike object"))
  end.

(** The command-line parameters the rest of the script works with. *)
Record parameters := Parameters {
  filename : pyval;
  orientation : pyval;
  dither : Dither;
  verbose : pyval
}.

(** Lines 126 to 138: parse the command line, read the parameters, echo
    them. *)
Definition read_parameters (argv : list string) : M parameters :=
  args ← Argparse.parse_args parser argv;
  filename ← getattr args "image_file";
  orientation ← getattr args "orient";
  mode ← getattr args "mode";
  dither ← getattr args "dither";
  dither ← lift (Image_Dither dither);
  verbose ← getattr args "verbose";
  print [Lit "Input image: "; FVal filename];;
  print [Lit "Orientation: "; FVal orientation];;
  print [Lit "Dither     : "; FDither dither];;
  print [Lit "Verbose    : "; FVal verbose];;
  mret (Parameters filename orientation dither verbose).

Section Driver.

Context `{Pillow}.

(** The pipeline run on each path of a list in turn, every run starting
    in the world the previous one left: the answers and the final
    world. *)
Inductive pipeline_runs (orientation : pyval) (dither : Dither) (verbose : bool)
  : list string → world → list bool → world → Prop :=
| runs_nil w : pipeline_runs orientation dither verbose [] w [] w
| runs_cons path paths w ok w1 oks w2 :
    convert_to_bmp path orientation dither verbose w = Return ok w1 →
    pipeline_runs orientation dither verbose paths w1 oks w2 →
    pipeline_runs orientation dither verbose (path :: paths) w (ok :: oks) w2.

(** The [for file in files:] loop of lines 143 to 145. *)
Fixpoint convert_files (filename : string) (orientation : pyval) (dither : Dither)
    (verbose : bool) (files : list string) (converted_files : Z) : M Z :=
  match files with
  | [] => mret converted_files
  | file :: files' =>
      ok ← convert_to_bmp (filename +:+ "/" +:+ file) orientation dither verbose;
      convert_files filename orientation dither verbose files'
                    (if (ok : bool) then converted_files + 1 else converted_files)
  end.

(** Lines 142 to 146: the directory arm; returns what the summary line
    reports, [converted_files] and [len(files)]. *)
Definition convert_directory (filename : string) (orientation : pyval) (dither : Dither)
    (verbose : bool) : M (Z * Z) :=
  files ← list_filenames filename;
  converted_files ← convert_files filename orientation dither verbose files 0;
  print [Lit "Converted "; FInt converted_files; Lit " from ";
         FInt (Z.of_nat (length files))];;
  mret (converted_files, Z.of_nat (length files)).

(** Lines 140 to 149. *)
Definition batch_driver (p : parameters) : M Z :=
  path ← as_path (filename p);
  isdir ← is_directory path;
  if (isdir : bool) then
    '(converted_files, _) ← convert_directory path (orientation p) (dither p)
                                              (truthy (verbose p));
    mret converted_files
  else
    ok ← convert_to_bmp path (orientation p) (dither p) (truthy (verbose p));
    mret (if (ok : bool) then 1 else 0).

(** The whole script after its definitions. *)
Definition main (argv : list string) : M Z :=
  p ← read_parameters argv;
  batch_driver p.

End Driver.

(** ** Notions the properties are stated with *)

(** The seven colours of the panel, in palette order: black, white, green,
    blue, red, yellow, orange. *)
Definition panel_colours : list rgb :=
  [(0, 0, 0); (255, 255, 255); (0, 255, 0); (0, 0, 255); (255, 0, 0); (255, 255, 0);
   (255, 128, 0)].

(** [int(n * scale_ratio)] as it would come out in exact arithmetic:
    rational quotients, rational product, floor. *)
Definition exact_scaled (n target_width target_height width height : Z) : Z :=
  Qfloor (inject_Z n * Qmax (inject_Z target_width / inject_Z width)
                            (inject_Z target_height / inject_Z height)).

(** The regular files directly inside a directory, whether or not the
    directory can be listed. *)
Definition regular_files_inside (w : world) (directory : string) : list string :=
  match fs w !! directory with
  | Some (Dir entries _) =>
      List.filter (λ f, is_regular_file w (os_path_join directory f)) entries
  | _ => []
  end.

(** How many runs of a batch answered [True]. *)
Definition successes (oks : list bool) : Z := Z.of_nat (length (List.filter id oks)).

(** What every namespace the parser returns satisfies: it has no
    attribute [mode], it has an attribute [image_file], and [orient] is
    one of the two choices. *)
Definition namespace_ok (ns : gmap string pyval) : Prop :=
  ns !! "mode" = None
  ∧ is_Some (ns !! "image_file")
  ∧ (ns !! "orient" = Some (PStr "landscape") ∨ ns !! "orient" = Some (PStr "portrait")).

(** A value stored under [orient] is one of the two choices. *)
Definition orient_value_ok (a : Argparse.action) (v : pyval) : Prop :=
  Argparse.dest a = "orient" → v = PStr "landscape" ∨ v = PStr "portrait".

(** A parsing state whose namespace is as above and whose pending
    positionals belong to the parser. *)
Definition state_ok (st : Argparse.state) : Prop :=
  namespace_ok (Argparse.namespace st)
  ∧ Forall (λ a, a ∈ parser) (Argparse.positionals st).

(** The world a computation leaves, however it ends. *)
Definition outcome_world {A} (r : outcome A) : world :=
  match r with
  | Return _ w => w
  | Raise _ w => w
  end.

(** No character of [s] is [c]. *)
Fixpoint lacks (c : ascii) (s : string) : bool :=
  match s with
  | EmptyString => true
  | String a s' => negb (Ascii.eqb a c) && lacks c s'
  end.

(** Every character of [s] is a dot. *)
Fixpoint all_dots (s : string) : bool :=
  match s with
  | EmptyString => true
  | String a s' => Ascii.eqb a "."%char && all_dots s'
  end.

(** The part of a path up to its last slash: empty, or ending in a
    slash. *)
Definition directory_prefix (dir : string) : bool :=
  String.eqb dir "" || endswith_slash dir.

(** The entries of a directory, listable or not. *)
Definition directory_entries (w : world) (directory : string) : list string :=
  match fs w !! directory with
  | Some (Dir entries _) => entries
  | _ => []
  end.

(** What [add_argument] allows under each destination. *)
Definition value_shape (a : Argparse.action) (v : pyval) : Prop :=
  (Argparse.dest a = "image_file" → ∃ s, v = PStr s)
  ∧ (Argparse.dest a = "orient" → v = PStr "landscape" ∨ v = PStr "portrait")
  ∧ (Argparse.dest a = "dither" → v = PInt 0 ∨ v = PInt 3)
  ∧ (Argparse.dest a = "verbose" → ∃ b, v = PBool b).

(** A namespace with the four attributes of the parser and nothing else,
    each of its kind; [image_file] is [None] until the positional is
    read. *)
Definition namespace_shape (ns : gmap string pyval) : Prop :=
  dom ns = ({["image_file"; "orient"; "dither"; "verbose"]} : gset string)
  ∧ (ns !! "image_file" = Some PNone ∨ ∃ s, ns !! "image_file" = Some (PStr s))
  ∧ (ns !! "orient" = Some (PStr "landscape") ∨ ns !! "orient" = Some (PStr "portrait"))
  ∧ (ns !! "dither" = Some (PInt 0) ∨ ns !! "dither" = Some (PInt 3))
  ∧ (∃ b, ns !! "verbose" = Some (PBool b)).

(** The positional is still expected, or it has been stored. *)
Definition state_shape (st : Argparse.state) : Prop :=
  namespace_shape (Argparse.namespace st)
  ∧ (Argparse.positionals st = [image_file_argument]
     ∨ (Argparse.positionals st = []
        ∧ ∃ s, Argparse.namespace st !! "image_file" = Some (PStr s))).

(** A command-line word that does not start with a dash. *)
Definition plain_word (s : string) : bool :=
  match s with
  | String c _ => negb (Ascii.eqb c "-"%char)
  | EmptyString => true
  end.

(** The namespace of a command line that gives the image file and
    possibly [--verbose]. *)
Definition namespace_of (image_file : string) (verbose : bool) : gmap string pyval :=
  <["image_file" := PStr image_file]>
    (<["orient" := PStr "portrait"]>
       (<["dither" := PInt 3]> (<["verbose" := PBool verbose]> ∅))).

(** ** Sample inputs *)

(** A 1200x800 photograph. *)
Definition sample_image : image := Image (1200, 800) (λ x y, (x `mod` 256, y `mod` 256, 77)).

(** A 2576x1932 photograph, the frame size of a five-megapixel camera. *)
Definition five_megapixel : image := Image (2576, 1932) (λ x y, (x `mod` 256, y `mod` 256, 77)).

(** A photograph next to a zero-byte file, a text file and a broken
    image. *)
Definition sample_world : world :=
  World (<["photo.jpg" := File (WellFormed sample_image)]>
         (<["empty.jpg" := File ZeroByte]>
          (<["notes.txt" := File WrongFormat]>
           (<["broken.png" := File (Corrupt sample_image)]> ∅)))) [].

(** The world after [photo.jpg] went through the pipeline with automatic
    orientation and the sample kernels. *)
Definition sample_world_converted : world :=
  World (<["photo.8b6.bmp" :=
             File (WellFormed
                     (compose_and_quantize (H:=nearest_kernels)
                        (Image (800, 533)
                               (resample (Pillow:=nearest_kernels) sample_image (800, 533)))
                        800 480 800 533 FLOYDSTEINBERG))]> (fs sample_world)) [].

(** The five-megapixel photograph alone. *)
Definition camera_world : world :=
  World (<["dsc.jpg" := File (WellFormed five_megapixel)]> ∅) [].

(** A file that decodes to an image ten pixels high and none wide. *)
Definition flat_world : world :=
  World (<["flat.png" := File (WellFormed (Image (0, 10) (λ _ _, (0, 0, 0))))]> ∅) [].

(** A directory that holds one photograph and may not be listed. *)
Definition locked_world : world :=
  World (<["album" := Dir ["a.jpg"] false]>
         (<["album/a.jpg" := File (WellFormed sample_image)]> ∅)) [].

(** A directory with two photographs, a text file and a subdirectory. *)
Definition album_world : world :=
  World (<["album" := Dir ["a.jpg"; "notes.txt"; "b.jpg"; "old"] true]>
         (<["album/a.jpg" := File (WellFormed sample_image)]>
          (<["album/notes.txt" := File WrongFormat]>
           (<["album/b.jpg" := File (WellFormed five_megapixel)]>
            (<["album/old" := Dir [] true]> ∅))))) [].

(** The world after the batch driver went through [album]. *)
Definition album_world_converted : world :=
  match convert_directory (H:=nearest_kernels) "album" (PStr "portrait") FLOYDSTEINBERG false
                          album_world with
  | Return _ w => w
  | Raise _ w => w
  end.

(** What [photo.jpg] alone on the command line parses to. *)
Definition sample_namespace : gmap string pyval :=
  <["image_file" := PStr "photo.jpg"]>
    (<["orient" := PStr "portrait"]>
       (<["dither" := PInt 3]> (<["verbose" := PBool false]> ∅))).

(** A file whose header announces more pixels than Pillow accepts:
    [Image.open] raises [DecompressionBombError]. *)
Definition bomb_world : world :=
  World (<["huge.png" :=
             File (Unopenable (Exn DecompressionBombError
                                   (PStr "Image size exceeds limit")))]> ∅) [].

(** A photograph whose file was cut short after the header. *)
Definition truncated_world : world :=
  World (<["cut.jpg" := File (Truncated sample_image)]> ∅) [].

(** A directory with a text file, an image without width and a
    photograph. *)
Definition mixed_album_world : world :=
  World (<["album" := Dir ["notes.txt"; "flat.png"; "b.jpg"] true]>
         (<["album/notes.txt" := File WrongFormat]>
          (<["album/flat.png" := File (WellFormed (Image (0, 10) (λ _ _, (0, 0, 0))))]>
           (<["album/b.jpg" := File (WellFormed sample_image)]> ∅)))) [].

(** A directory that holds a subdirectory and a name without a file
    behind it. *)
Definition folders_world : world :=
  World (<["album" := Dir ["old"; "gone.jpg"] true]>
         (<["album/old" := Dir [] true]> ∅)) [].

(** A resized image one pixel narrower than the 800x480 canvas. *)
Definition narrow_image : image := Image (799, 600) (λ _ _, (1, 2, 3)).

(** * Properties *)

Ltac unfold_monad :=
  unfold mbind, M_bind, mret, M_ret, raise, lift, res_bind, res_ret in *.

(** ** Validation *)

Lemma open_and_verify_eq (filepath : string) (w : world) :
  open_and_verify filepath w =
  match fs w !! filepath with
  | Some (File (WellFormed _)) | Some (File (Truncated _)) => Return tt w
  | Some (File (Corrupt _)) => Raise (Exn SyntaxError (PStr "broken image file")) w
  | Some (File ZeroByte) | Some (File WrongFormat) =>
      Raise (Exn UnidentifiedImageError (PStr "cannot identify image file")) w
  | Some (File (Unopenable e)) => Raise e w
  | Some (Dir _ _) => Raise (Exn IsADirectoryError (PStr filepath)) w
  | Some (Inaccessible a) => Raise (access_exn a filepath) w
  | None => Raise (Exn FileNotFoundError (PStr filepath)) w
  end.
Proof.
  unfold open_and_verify, Image_open, Image_verify. unfold_monad.
  destruct (fs w !! filepath) as [[[]| |]|]; reflexivity.
Qed.

Lemma is_valid_image_eq (filepath : string) (w : world) :
  is_valid_image filepath w =
  match fs w !! filepath with
  | Some (File (WellFormed _)) | Some (File (Truncated _)) => Return true w
  | Some (File (Unopenable e)) =>
      if isinstance e [IOError; SyntaxError] then Return false w else Raise e w
  | Some (Inaccessible EmbeddedNull) => Raise (access_exn EmbeddedNull filepath) w
  | _ => Return false w
  end.
Proof.
  unfold is_valid_image, try_except.
  unfold mbind at 1, M_bind at 1. rewrite open_and_verify_eq.
  destruct (fs w !! filepath) as [[[]| |[]]|]; try reflexivity.
  cbn [handle]. by destruct (isinstance e _).
Qed.

(** C6, as the script behaves.  [is_valid_image] answers [True] when
    [Image.open] and [verify()] raise nothing, [False] when one of them
    raises an instance of [IOError] (which is [OSError]) or of
    [SyntaxError], and lets every other exception through to its caller;
    it changes nothing.  So a zero-byte file and a file in another
    format ([UnidentifiedImageError], a subclass of [OSError]), data that
    [verify()] rejects, a path that leads to nothing or to a directory
    give [False]; a file whose header is sound and whose pixel data stop
    short gives [True], because [verify()] decodes nothing; and an
    exception of another class, as [DecompressionBombError] or the
    [ValueError] for a NUL byte in the name, leaves the function. *)
Theorem is_valid_image_by_exception_class (filepath : string) (w : world) :
  match open_and_verify filepath w with
  | Return _ _ => is_valid_image filepath w = Return true w
  | Raise e _ =>
      is_valid_image filepath w
      = if isinstance e [IOError; SyntaxError] then Return false w else Raise e w
  end
  ∧ (∀ d, fs w !! filepath = Some (File d) →
          match d with
          | WellFormed _ | Truncated _ => is_valid_image filepath w = Return true w
          | ZeroByte | WrongFormat | Corrupt _ => is_valid_image filepath w = Return false w
          | Unopenable e =>
              (exn_class e ∈ [OSError; FileNotFoundError; PermissionError;
                              IsADirectoryError; NotADirectoryError;
                              UnidentifiedImageError; SyntaxError] →
               is_valid_image filepath w = Return false w)
              ∧ (exn_class e ∈ [BaseException; SystemExit; Exception; ArithmeticError;
                                ZeroDivisionError; OverflowError; AttributeError;
                                TypeError; ValueError; DecompressionBombError] →
                 is_valid_image filepath w = Raise e w)
          end)
  ∧ (fs w !! filepath = None ∨ (∃ entries listable, fs w !! filepath = Some (Dir entries listable)) →
     is_valid_image filepath w = Return false w)
  ∧ (fs w !! filepath = Some (Inaccessible EmbeddedNull) →
     is_valid_image filepath w = Raise (Exn ValueError (PStr "embedded null byte")) w).
Proof.
  split; [|split; [|split]].
  - rewrite is_valid_image_eq, open_and_verify_eq.
    destruct (fs w !! filepath) as [[[]| |[]]|]; try reflexivity.
  - intros d Hfile. rewrite is_valid_image_eq, Hfile.
    destruct d as [| | | | |e]; try reflexivity.
    destruct e as [c a]. cbn [exn_class]. split; intros Hin.
    + repeat (apply elem_of_cons in Hin as [->|Hin]; [reflexivity|]).
      by apply elem_of_nil in Hin.
    + repeat (apply elem_of_cons in Hin as [->|Hin]; [reflexivity|]).
      by apply elem_of_nil in Hin.
  - intros [Hnone|(entries & listable & Hdir)]; rewrite is_valid_image_eq.
    + by rewrite Hnone.
    + by rewrite Hdir.
  - intros Hnull. by rewrite is_valid_image_eq, Hnull.
Qed.

Lemma is_valid_image_by_exception_class_witness :
  is_valid_image "photo.jpg" sample_world = Return true sample_world
  ∧ is_valid_image "broken.png" sample_world = Return false sample_world
  ∧ is_valid_image "empty.jpg" sample_world = Return false sample_world
  ∧ is_valid_image "missing.jpg" sample_world = Return false sample_world.
Proof.
  split; [|split; [|split]].
  - apply (proj1 (proj2 (is_valid_image_by_exception_class "photo.jpg" sample_world))
             (WellFormed sample_image)).
    reflexivity.
  - apply (proj1 (proj2 (is_valid_image_by_exception_class "broken.png" sample_world))
             (Corrupt sample_image)).
    reflexivity.
  - apply (proj1 (proj2 (is_valid_image_by_exception_class "empty.jpg" sample_world))
             ZeroByte).
    reflexivity.
  - apply (proj1 (proj2 (proj2 (is_valid_image_by_exception_class "missing.jpg"
                                  sample_world)))).
    left. reflexivity.
Defined.

(** ** Paths *)

Lemma py_eq_str_true (v : pyval) (s : string) : py_eq_str v s = true ↔ v = PStr s.
Proof.
  destruct v; cbn; try (split; [discriminate|done]).
  rewrite String.eqb_eq. split; congruence.
Qed.

Lemma rfind_from_bound (c : ascii) (s : string) (i : Z) :
  0 ≤ i → rfind_from c s i = -1 ∨ i ≤ rfind_from c s i < i + Z.of_nat (String.length s).
Proof.
  revert i. induction s as [|a s IH]; intros i Hi; [by left|].
  cbn [rfind_from String.length].
  destruct (IH (i + 1) ltac:(lia)) as [->|Hr].
  - cbn. destruct (Ascii.eqb a c); [right; lia|by left].
  - destruct (0 <=? _) eqn:Hle; [right; lia|].
    apply Z.leb_gt in Hle. lia.
Qed.

Lemma substring_all (p : string) : String.substring 0 (String.length p) p = p.
Proof. induction p as [|a p IH]; [done|]. cbn [String.length String.substring]. by f_equal. Qed.

Lemma substring_split (p : string) (n : nat) :
  (n ≤ String.length p)%nat →
  String.substring 0 n p +:+ String.substring n (String.length p - n) p = p.
Proof.
  revert n. induction p as [|a p IH]; intros n Hn.
  - destruct n; cbn in *; [done|lia].
  - destruct n as [|n].
    + rewrite Nat.sub_0_r, substring_all. reflexivity.
    + cbn [String.length] in *.
      replace (S (String.length p) - S n)%nat with (String.length p - n)%nat by lia.
      cbn [String.substring].
      change (String a (String.substring 0 n p) +:+ ?x)
        with (String a (String.substring 0 n p +:+ x)).
      f_equal. apply IH. lia.
Qed.

(** [splitext] cuts the path in two: root and extension give it back. *)
Lemma os_path_splitext_app (p : string) :
  (os_path_splitext p).1 +:+ (os_path_splitext p).2 = p.
Proof.
  unfold os_path_splitext.
  destruct (_ && _) eqn:Hcond; cbn [fst snd].
  - apply andb_prop in Hcond as [Hlt%Z.ltb_lt _].
    apply substring_split.
    unfold rfind in *.
    destruct (rfind_from_bound "."%char p 0 ltac:(lia)) as [Hdot|Hdot];
      destruct (rfind_from_bound "/"%char p 0 ltac:(lia)) as [Hsep|Hsep]; lia.
  - clear. induction p as [|a p IH]; [done|].
    change (String a p +:+ "") with (String a (p +:+ "")). by f_equal.
Qed.

Lemma append_cons (c : ascii) (a b : string) : String c a +:+ b = String c (a +:+ b).
Proof. reflexivity. Qed.

Lemma append_nil (b : string) : "" +:+ b = b.
Proof. reflexivity. Qed.

Lemma append_assoc (a b c : string) : (a +:+ b) +:+ c = a +:+ (b +:+ c).
Proof. induction a as [|x a IH]; [done|]. rewrite !append_cons. by rewrite IH. Qed.

Lemma length_append (a b : string) :
  String.length (a +:+ b) = (String.length a + String.length b)%nat.
Proof. induction a as [|x a IH]; [done|]. rewrite append_cons. cbn. by rewrite IH. Qed.

Lemma rfind_from_lacks (c : ascii) (s : string) (i : Z) :
  lacks c s = true → rfind_from c s i = -1.
Proof.
  revert i. induction s as [|a s IH]; intros i; [done|].
  cbn [lacks rfind_from]. intros [Ha Hs]%andb_prop. rewrite (IH _ Hs). cbn.
  by destruct (Ascii.eqb a c).
Qed.

Lemma rfind_from_app_lacks (c : ascii) (a b : string) (i : Z) :
  lacks c b = true → rfind_from c (a +:+ b) i = rfind_from c a i.
Proof.
  intros Hb. revert i. induction a as [|x a IH]; intros i.
  - cbn. by apply rfind_from_lacks.
  - rewrite append_cons. cbn [rfind_from]. by rewrite IH.
Qed.

Lemma rfind_from_last_occurrence (c : ascii) (a b : string) (i : Z) :
  0 ≤ i → lacks c b = true →
  rfind_from c (a +:+ String c b) i = i + Z.of_nat (String.length a).
Proof.
  intros Hi Hb. revert i Hi. induction a as [|x a IH]; intros i Hi.
  - rewrite append_nil. cbn [rfind_from String.length]. rewrite (rfind_from_lacks _ _ _ Hb).
    cbn. rewrite Ascii.eqb_refl. lia.
  - rewrite append_cons. cbn [rfind_from String.length]. rewrite IH by lia.
    destruct (0 <=? _) eqn:E; [lia|]. apply Z.leb_gt in E. lia.
Qed.

Lemma endswith_slash_snoc (dir : string) :
  endswith_slash dir = true → ∃ d, dir = d +:+ "/".
Proof.
  induction dir as [|c dir IH]; [done|].
  cbn [endswith_slash]. destruct dir as [|c' dir'].
  - intros ->%Ascii.eqb_eq. by exists "".
  - intros [d ->]%IH. by exists (String c d).
Qed.

(** The index after the last slash of a path that continues a directory
    prefix with a name without slashes. *)
Lemma rfind_slash_prefix (dir rest : string) :
  directory_prefix dir = true → lacks "/"%char rest = true →
  Z.to_nat (rfind "/"%char (dir +:+ rest) + 1) = String.length dir
  ∧ rfind "/"%char (dir +:+ rest) = Z.of_nat (String.length dir) - 1.
Proof.
  intros Hdir Hrest. unfold rfind. rewrite (rfind_from_app_lacks _ _ _ _ Hrest).
  apply orb_prop in Hdir as [->%String.eqb_eq|[d ->]%endswith_slash_snoc]; [done|].
  rewrite (rfind_from_last_occurrence "/"%char d "" 0) by done.
  rewrite length_append. cbn [String.length]. lia.
Qed.

Lemma get_app_length (a : string) (c : ascii) (b : string) :
  String.get (String.length a) (a +:+ String c b) = Some c.
Proof. induction a as [|x a IH]; [done|]. rewrite append_cons. exact IH. Qed.

Lemma has_non_dot_segment (a name rest : string) :
  has_non_dot (a +:+ name +:+ rest) (String.length a) (String.length name)
  = negb (all_dots name).
Proof.
  revert a. induction name as [|c name IH]; intros a; [done|].
  cbn [String.length has_non_dot all_dots]. rewrite append_cons, get_app_length.
  destruct (Ascii.eqb c ".") eqn:Hc; [|done]. cbn [andb].
  specialize (IH (a +:+ String c "")).
  rewrite append_assoc, length_append, append_cons, append_nil in IH. cbn [String.length] in IH.
  rewrite Nat.add_1_r in IH. exact IH.
Qed.

Lemma substring_app_l (a b : string) : String.substring 0 (String.length a) (a +:+ b) = a.
Proof. induction a as [|x a IH]; [by destruct b|]. rewrite append_cons. cbn. by rewrite IH. Qed.

Lemma substring_app_r (a b : string) :
  String.substring (String.length a) (String.length b) (a +:+ b) = b.
Proof.
  induction a as [|x a IH]; [apply substring_all|]. rewrite append_cons. exact IH.
Qed.

Lemma lacks_app (c : ascii) (a b : string) :
  lacks c (a +:+ b) = lacks c a && lacks c b.
Proof.
  induction a as [|x a IH]; [done|]. rewrite append_cons. cbn [lacks].
  by rewrite IH, andb_assoc.
Qed.

Lemma all_dots_lacks_slash (s : string) : all_dots s = true → lacks "/"%char s = true.
Proof.
  induction s as [|c s IH]; [done|]. cbn [all_dots lacks].
  intros [->%Ascii.eqb_eq Hs]%andb_prop. by rewrite (IH Hs).
Qed.

Lemma all_dots_snoc (s : string) : all_dots s = true → String "." s = s +:+ ".".
Proof.
  induction s as [|c s IH]; [done|]. cbn [all_dots].
  intros [->%Ascii.eqb_eq Hs]%andb_prop. rewrite append_cons. by rewrite <- (IH Hs).
Qed.

(** [os.path.splitext] on a path with an extension: the extension
    starts at the last dot of the file name, provided that what precedes
    the dot in the name is more than dots. *)
Lemma os_path_splitext_ext (dir name ext : string) :
  directory_prefix dir = true →
  lacks "/"%char name = true → all_dots name = false →
  lacks "/"%char ext = true → lacks "."%char ext = true →
  os_path_splitext (dir +:+ name +:+ "." +:+ ext) = (dir +:+ name, "." +:+ ext).
Proof.
  intros Hdir Hname Hdots Hext_slash Hext_dot.
  assert (Hrest : lacks "/"%char (name +:+ "." +:+ ext) = true).
  { rewrite lacks_app, Hname, append_cons, append_nil. cbn [lacks]. by rewrite Hext_slash. }
  destruct (rfind_slash_prefix dir _ Hdir Hrest) as [Hsep_nat Hsep].
  assert (Hdot : rfind "."%char (dir +:+ name +:+ "." +:+ ext)
                 = Z.of_nat (String.length (dir +:+ name))).
  { unfold rfind. rewrite <- (append_assoc dir name).
    change ("." +:+ ext) with (String "." ext).
    by rewrite rfind_from_last_occurrence. }
  unfold os_path_splitext. rewrite Hsep_nat, Hdot, Hsep.
  assert (Hn : Z.to_nat (Z.of_nat (String.length (dir +:+ name))
                         - (Z.of_nat (String.length dir) - 1 + 1))
               = String.length name) by (rewrite length_append; lia).
  assert (Hlt : (Z.of_nat (String.length dir) - 1
                 <? Z.of_nat (String.length (dir +:+ name))) = true)
    by (apply Z.ltb_lt; rewrite length_append; lia).
  rewrite Hn, Hlt, has_non_dot_segment, Hdots. cbn [andb negb]. rewrite Nat2Z.id.
  rewrite <- (append_assoc dir name). rewrite substring_app_l.
  replace (String.length ((dir +:+ name) +:+ "." +:+ ext) - String.length (dir +:+ name))%nat
    with (String.length ("." +:+ ext)) by (rewrite (length_append (dir +:+ name)); lia).
  by rewrite substring_app_r.
Qed.

(** [os.path.splitext] on a path without an extension: the file name
    has no dot after its leading dots. *)
Lemma os_path_splitext_no_ext (dir dots rest : string) :
  directory_prefix dir = true →
  all_dots dots = true →
  lacks "/"%char rest = true → lacks "."%char rest = true →
  os_path_splitext (dir +:+ dots +:+ rest) = (dir +:+ dots +:+ rest, "").
Proof.
  intros Hdir Hdots Hrest_slash Hrest_dot.
  assert (Hname : lacks "/"%char (dots +:+ rest) = true).
  { by rewrite lacks_app, (all_dots_lacks_slash _ Hdots), Hrest_slash. }
  destruct (rfind_slash_prefix dir _ Hdir Hname) as [Hsep_nat Hsep].
  unfold os_path_splitext. rewrite Hsep_nat, Hsep.
  destruct dots as [|c dots].
  - rewrite append_nil. unfold rfind. rewrite (rfind_from_app_lacks _ _ _ _ Hrest_dot).
    replace (Z.of_nat (String.length dir) - 1 <? rfind_from "." dir 0) with false; [done|].
    symmetry. apply Z.ltb_ge.
    apply orb_prop in Hdir as [->%String.eqb_eq|[d ->]%endswith_slash_snoc]; [done|].
    rewrite (rfind_from_app_lacks "."%char d "/" 0) by done.
    rewrite length_append. cbn [String.length].
    destruct (rfind_from_bound "."%char d 0 ltac:(lia)); lia.
  - cbn [all_dots] in Hdots. apply andb_prop in Hdots as [->%Ascii.eqb_eq Hdots].
    rewrite (all_dots_snoc _ Hdots).
    assert (Hdot : rfind "."%char (dir +:+ (dots +:+ ".") +:+ rest)
                   = Z.of_nat (String.length (dir +:+ dots))).
    { unfold rfind. rewrite (append_assoc dots), <- (append_assoc dir dots).
      change ("." +:+ rest) with (String "." rest).
      by rewrite rfind_from_last_occurrence. }
    assert (Hn : Z.to_nat (Z.of_nat (String.length (dir +:+ dots))
                           - (Z.of_nat (String.length dir) - 1 + 1))
                 = String.length dots) by (rewrite length_append; lia).
    rewrite Hdot, Hn, (append_assoc dots).
    by rewrite has_non_dot_segment, Hdots, andb_false_r.
Qed.

Lemma directory_prefix_cons (c : ascii) (dir : string) :
  dir ≠ "" → directory_prefix dir = true → directory_prefix (String c dir) = true.
Proof.
  intros Hne Hdir. unfold directory_prefix in *.
  destruct dir as [|c' dir']; [done|]. cbn [String.eqb] in *.
  apply orb_prop in Hdir as [Hdir|Hdir]; [done|]. by rewrite orb_true_iff; right.
Qed.

(** Every path is a directory prefix followed by a name without
    slashes. *)
Lemma path_dir_name (p : string) :
  ∃ dir name, p = dir +:+ name ∧ directory_prefix dir = true ∧ lacks "/"%char name = true.
Proof.
  induction p as [|c p (dir & name & -> & Hdir & Hname)]; [by exists "", ""|].
  destruct dir as [|c' dir'].
  - rewrite append_nil. destruct (Ascii.eqb c "/") eqn:Hc.
    + apply Ascii.eqb_eq in Hc as ->. exists "/", name. done.
    + exists "", (String c name). rewrite append_nil. cbn [lacks]. by rewrite Hc, Hname.
  - exists (String c (String c' dir')), name. rewrite append_cons.
    split; [done|]. split; [by apply directory_prefix_cons|done].
Qed.

(** A name has an extension, after a stem that is more than dots, or it
    has no dot after its leading dots. *)
Lemma name_stem_ext (name : string) :
  (∃ stem ext, name = stem +:+ "." +:+ ext
               ∧ all_dots stem = false ∧ lacks "."%char ext = true)
  ∨ (∃ dots rest, name = dots +:+ rest
                  ∧ all_dots dots = true ∧ lacks "."%char rest = true).
Proof.
  induction name as [|c name [(stem & ext & -> & Hstem & Hext)
                              |(dots & rest & -> & Hdots & Hrest)]].
  - right. by exists "", "".
  - left. exists (String c stem), ext. rewrite append_cons. cbn [all_dots].
    by rewrite Hstem, andb_false_r.
  - destruct (Ascii.eqb c ".") eqn:Hc.
    + right. exists (String c dots), rest. rewrite append_cons. cbn [all_dots].
      by rewrite Hc, Hdots.
    + destruct dots as [|d dots'].
      * right. exists "", (String c rest). rewrite !append_nil. cbn [lacks].
        by rewrite Hc, Hrest.
      * left. cbn [all_dots] in Hdots. apply andb_prop in Hdots as [->%Ascii.eqb_eq Hdots].
        exists (String c dots'), rest.
        rewrite (all_dots_snoc _ Hdots), !append_cons, append_assoc.
        split; [done|]. cbn [all_dots]. by rewrite Hc.
Qed.

(** The two shapes of a path that [os.path.splitext] tells apart. *)
Lemma path_shapes (p : string) :
  (∃ dir stem ext,
     p = dir +:+ stem +:+ "." +:+ ext
     ∧ directory_prefix dir = true
     ∧ lacks "/"%char stem = true ∧ all_dots stem = false
     ∧ lacks "/"%char ext = true ∧ lacks "."%char ext = true)
  ∨ (∃ dir dots rest,
       p = dir +:+ dots +:+ rest
       ∧ directory_prefix dir = true ∧ all_dots dots = true
       ∧ lacks "/"%char rest = true ∧ lacks "."%char rest = true).
Proof.
  destruct (path_dir_name p) as (dir & name & -> & Hdir & Hname).
  destruct (name_stem_ext name) as [(stem & ext & -> & Hstem & Hext)
                                   |(dots & rest & -> & Hdots & Hrest)].
  - left. exists dir, stem, ext.
    rewrite lacks_app, append_cons, append_nil in Hname. cbn [lacks] in Hname.
    apply andb_prop in Hname as [Hs [_ He]%andb_prop]. done.
  - right. exists dir, dots, rest.
    rewrite lacks_app in Hname. apply andb_prop in Hname as [_ Hr]. done.
Qed.

(** ** Geometry *)

Lemma target_size_by_orientation_auto (display_orientation : pyval) (width height : Z) :
  truthy display_orientation = false →
  (width > height → target_size display_orientation width height = (800, 480))
  ∧ (¬ width > height → target_size display_orientation width height = (480, 800)).
Proof.
  intros Ho. unfold target_size, orientation_branch. rewrite Ho, Z.gtb_ltb.
  destruct (height <? width) eqn:Hlt.
  - apply Z.ltb_lt in Hlt. split; [done|lia].
  - apply Z.ltb_ge in Hlt. split; [lia|done].
Qed.

(** C8. The paste offsets centre the resized image on the canvas: on each
    axis the middle of the pasted image is within one pixel of the middle
    of the canvas. *)
Theorem paste_offset_centred (target_width target_height resized_width resized_height : Z) :
  (Qabs (inject_Z (paste_offset target_width target_height resized_width resized_height).1
         + inject_Z resized_width / 2 - inject_Z target_width / 2) <= 1)%Q
  ∧ (Qabs (inject_Z (paste_offset target_width target_height resized_width resized_height).2
           + inject_Z resized_height / 2 - inject_Z target_height / 2) <= 1)%Q.
Proof.
  unfold paste_offset; cbn [fst snd].
  split; apply Qabs_Qle_condition.
  - pose proof (Z.div_mod (target_width - resized_width) 2 ltac:(lia)).
    pose proof (Z.mod_pos_bound (target_width - resized_width) 2 ltac:(lia)).
    unfold Qle, Qplus, Qminus, Qdiv, Qmult, Qinv, Qopp, inject_Z; cbn. lia.
  - pose proof (Z.div_mod (target_height - resized_height) 2 ltac:(lia)).
    pose proof (Z.mod_pos_bound (target_height - resized_height) 2 ltac:(lia)).
    unfold Qle, Qplus, Qminus, Qdiv, Qmult, Qinv, Qopp, inject_Z; cbn. lia.
Qed.

(** In exact arithmetic the scale does cover the canvas: neither resized
    dimension is below the canvas. *)
Lemma exact_product (n t : Z) :
  0 < n → (inject_Z t == inject_Z n * (inject_Z t / inject_Z n))%Q.
Proof.
  intros Hn. field. intros E.
  assert (Hq : (0 < inject_Z n)%Q) by (rewrite <- (Zlt_Qlt 0); exact Hn).
  rewrite E in Hq. by apply Qlt_irrefl in Hq.
Qed.

Lemma exact_cover (target_width target_height width height : Z) :
  0 < width → 0 < height →
  target_width ≤ exact_scaled width target_width target_height width height
  ∧ target_height ≤ exact_scaled height target_width target_height width height.
Proof.
  intros Hw Hh. unfold exact_scaled.
  assert (Hqw : (0 < inject_Z width)%Q) by (rewrite <- (Zlt_Qlt 0); exact Hw).
  assert (Hqh : (0 < inject_Z height)%Q) by (rewrite <- (Zlt_Qlt 0); exact Hh).
  split.
  - rewrite <- (Qfloor_Z target_width) at 1. apply Qfloor_resp_le.
    eapply Qle_trans; [apply Qle_lteq; right; apply (exact_product width); done|].
    apply Qmult_le_l; [done|]. apply Q.le_max_l.
  - rewrite <- (Qfloor_Z target_height) at 1. apply Qfloor_resp_le.
    eapply Qle_trans; [apply Qle_lteq; right; apply (exact_product height); done|].
    apply Qmult_le_l; [done|]. apply Q.le_max_r.
Qed.

(** C2. The cover property fails in binary64 arithmetic.  For a 2576x1932
    source and the 800x480 canvas the scale is the quotient 800/2576
    rounded to a double; multiplied back by 2576 it gives a product just
    below 800, which [int] truncates to 799: the resized image is one
    pixel narrower than the canvas, and the paste leaves the last column
    of the canvas white, as the run on [dsc.jpg] with the sample kernels
    shows.  A 97x97 source on the default 480x800 canvas is resized to
    799x799, one pixel short of the canvas height. *)
Theorem cover_undershoots_2576x1932 :
  target_size (PStr "landscape") 2576 1932 = (800, 480)
  ∧ (s ← scale_ratio 800 480 2576 1932; resized_size 2576 1932 s) = Ok (799, 600)
  ∧ paste_offset 800 480 799 600 = (0, -60)
  ∧ exact_scaled 2576 800 480 2576 1932 = 800
  ∧ match convert_to_bmp (H:=nearest_kernels) "dsc.jpg" (PStr "landscape") NONE false
                         camera_world with
    | Return true w' =>
        match fs w' !! "dsc.6b8.bmp" with
        | Some (File (WellFormed out)) =>
            im_size out = (800, 480)
            ∧ im_pixel out 798 0 = (0, 255, 0)
            ∧ im_pixel out 799 0 = (255, 255, 255)
            ∧ im_pixel out 799 479 = (255, 255, 255)
        | _ => False
        end
    | _ => False
    end
  ∧ target_size (PStr "portrait") 97 97 = (480, 800)
  ∧ (s ← scale_ratio 480 800 97 97; resized_size 97 97 s) = Ok (799, 799).
Proof.
  split; [reflexivity|]. split; [vm_compute; reflexivity|].
  split; [reflexivity|]. split; [vm_compute; reflexivity|].
  split; [vm_compute; repeat split|].
  split; [reflexivity|vm_compute; reflexivity].
Qed.

(** The exceptions of the arithmetic. *)
Lemma of_int_err (z : Z) (e : exn) : PyFloat.of_int z = Err e → exn_class e = OverflowError.
Proof.
  unfold PyFloat.of_int. destruct (binary_normalize _ _ _ _ _); try discriminate;
    by intros [= <-].
Qed.

Lemma truediv_by_zero (a : Z) :
  PyFloat.truediv a 0 = Err (Exn ZeroDivisionError (PStr "division by zero")).
Proof. reflexivity. Qed.

Lemma truediv_err (a b : Z) (e : exn) :
  PyFloat.truediv a b = Err e → b ≠ 0 → exn_class e = OverflowError.
Proof.
  unfold PyFloat.truediv. intros Hdiv Hb.
  destruct (b =? 0) eqn:Hz; [apply Z.eqb_eq in Hz; done|].
  destruct (a =? 0); [discriminate|].
  destruct (SFdiv_core_binary _ _ _ _ _ _) as [[mz ez] lz].
  destruct (binary_round_aux _ _ _ _ _ _); try discriminate; by injection Hdiv as <-.
Qed.

Lemma target_size_cases (o : pyval) (width height : Z) :
  target_size o width height = (800, 480) ∨ target_size o width height = (480, 800).
Proof.
  unfold target_size.
  destruct (orientation_branch o); [destruct (py_eq_str _ _)|destruct (_ >? _)]; auto.
Qed.

Lemma scale_ratio_err (tw th width height : Z) (e : exn) :
  scale_ratio tw th width height = Err e →
  (width = 0 ∧ e = Exn ZeroDivisionError (PStr "division by zero"))
  ∨ (width ≠ 0 ∧ height = 0 ∧
     (e = Exn ZeroDivisionError (PStr "division by zero") ∨ exn_class e = OverflowError))
  ∨ (width ≠ 0 ∧ height ≠ 0 ∧ exn_class e = OverflowError).
Proof.
  unfold scale_ratio. unfold_monad.
  destruct (decide (width = 0)) as [->|Hw].
  { rewrite truediv_by_zero. intros [= <-]. auto. }
  destruct (PyFloat.truediv tw width) as [a|e'] eqn:Ha.
  - destruct (decide (height = 0)) as [->|Hh].
    + rewrite truediv_by_zero. intros [= <-]. right; left. auto.
    + destruct (PyFloat.truediv th height) as [b|e''] eqn:Hb; [discriminate|].
      intros [= <-]. right; right. eauto using truediv_err.
  - intros [= <-]. apply truediv_err in Ha; [|done].
    destruct (decide (height = 0)); [right; left; auto|right; right; auto].
Qed.

Lemma scaled_err (n : Z) (s : PyFloat.float) (e : exn) :
  scaled n s = Err e → exn_class e = OverflowError ∨ exn_class e = ValueError.
Proof.
  unfold scaled, PyFloat.mul_int. unfold_monad.
  destruct (PyFloat.of_int n) eqn:Hn; [|intros [= <-]; eauto using of_int_err].
  unfold PyFloat.to_int. destruct (SFmul _ _ _ _); try discriminate; intros [= <-]; auto.
Qed.

Lemma resized_size_err (width height : Z) (s : PyFloat.float) (e : exn) :
  resized_size width height s = Err e → exn_class e = OverflowError ∨ exn_class e = ValueError.
Proof.
  unfold resized_size. unfold_monad.
  destruct (scaled width s) eqn:Hw; [|intros [= <-]; eauto using scaled_err].
  destruct (scaled height s) eqn:Hh; [discriminate|intros [= <-]; eauto using scaled_err].
Qed.

Lemma scale_ratio_ok (tw th width height : Z) (s : PyFloat.float) :
  scale_ratio tw th width height = Ok s → width ≠ 0 ∧ height ≠ 0.
Proof.
  unfold scale_ratio. unfold_monad. intros Hs. split; intros ->.
  - by rewrite truediv_by_zero in Hs.
  - destruct (PyFloat.truediv tw width); [|done]. by rewrite truediv_by_zero in Hs.
Qed.

(** ** The per-file pipeline *)

Lemma print_verbose_return input_filename width height target_width target_height w w1 :
  print_verbose input_filename width height target_width target_height w = Return tt w1 →
  fs w1 = fs w ∧ ∃ line : list frag, stdout w1 = (stdout w ++ [line])%list.
Proof.
  unfold print_verbose, print. unfold_monad.
  destruct (PyFloat.truediv height width); [|discriminate].
  destruct (PyFloat.truediv target_height target_width); [|discriminate].
  intros [= <-]. split; [done|]. eexists. reflexivity.
Qed.

Lemma print_verbose_raise input_filename width height target_width target_height w e w1 :
  print_verbose input_filename width height target_width target_height w = Raise e w1 →
  w1 = w.
Proof.
  unfold print_verbose, print. unfold_monad.
  destruct (PyFloat.truediv height width); [|by intros [= _ <-]].
  destruct (PyFloat.truediv target_height target_width); [discriminate|by intros [= _ <-]].
Qed.

Lemma print_verbose_outcome input_filename width height target_width target_height w :
  match print_verbose input_filename width height target_width target_height w with
  | Return _ w' => fs w' = fs w ∧ width ≠ 0
  | Raise e w' =>
      w' = w
      ∧ ((width = 0 ∧ e = Exn ZeroDivisionError (PStr "division by zero"))
         ∨ (width ≠ 0 ∧ target_width ≠ 0 ∧ exn_class e = OverflowError)
         ∨ (width ≠ 0 ∧ target_width = 0))
  end.
Proof.
  unfold print_verbose, print. unfold_monad.
  destruct (decide (width = 0)) as [->|Hw].
  { rewrite truediv_by_zero. split; [done|by left]. }
  destruct (PyFloat.truediv height width) as [r|e] eqn:Hr.
  - destruct (decide (target_width = 0)) as [->|Ht].
    { rewrite truediv_by_zero. split; [done|by right; right]. }
    destruct (PyFloat.truediv target_height target_width) as [t|e] eqn:Ht'; [done|].
    split; [done|]. right; left. eauto using truediv_err.
  - split; [done|].
    destruct (decide (target_width = 0)); [by right; right|].
    right; left. eauto using truediv_err.
Qed.

Section Pipeline.

Context `{Pillow}.

(** The pipeline on a file that validates and whose pixel data stop
    short: the two checks pass, the geometry is computed, and [resize]
    raises when it loads the data. *)
Lemma convert_to_bmp_truncated input_filename display_orientation display_dither verbose
    w im :
  fs w !! input_filename = Some (File (Truncated im)) →
  convert_to_bmp input_filename display_orientation display_dither verbose w =
  (let '(width, height) := im_size im in
   let '(target_width, target_height) := target_size display_orientation width height in
   (if verbose
    then print_verbose input_filename width height target_width target_height
    else mret tt);;
   scale_ratio ← lift (scale_ratio target_width target_height width height);
   '(_, _) ← lift (resized_size width height scale_ratio);
   raise (Exn OSError (PStr "image file is truncated"))) w.
Proof.
  intros Hfile. unfold convert_to_bmp.
  unfold mbind at 1, M_bind at 1. unfold os_path_isfile at 1, is_regular_file.
  rewrite Hfile. cbn [negb].
  unfold mbind at 1, M_bind at 1. rewrite is_valid_image_eq, Hfile. cbn [negb].
  unfold mbind at 1, M_bind at 1. unfold Image_open at 1. rewrite Hfile.
  reflexivity.
Qed.

(** Such a run never returns: it ends in the [OSError] of the load, or
    in an exception of the arithmetic before it; no file is written. *)
Lemma convert_to_bmp_truncated_raises input_filename display_orientation display_dither
    verbose w im :
  fs w !! input_filename = Some (File (Truncated im)) →
  ∃ e w',
    convert_to_bmp input_filename display_orientation display_dither verbose w = Raise e w'
    ∧ fs w' = fs w
    ∧ (if verbose
       then stdout w' = stdout w ∨ ∃ line : list frag, stdout w' = (stdout w ++ [line])%list
       else w' = w)
    ∧ (∀ s resized,
         scale_ratio (target_size display_orientation (im_size im).1 (im_size im).2).1
                     (target_size display_orientation (im_size im).1 (im_size im).2).2
                     (im_size im).1 (im_size im).2 = Ok s →
         resized_size (im_size im).1 (im_size im).2 s = Ok resized →
         e = Exn OSError (PStr "image file is truncated")
         ∨ (verbose = true ∧ exn_class e = OverflowError)).
Proof.
  intros Hfile. rewrite (convert_to_bmp_truncated _ _ _ _ _ _ Hfile).
  destruct (im_size im) as [width height]. cbn [fst snd].
  assert (∃ tw th, target_size display_orientation width height = (tw, th) ∧ tw ≠ 0)
    as (tw & th & -> & Htw).
  { destruct (target_size_cases display_orientation width height) as [->| ->];
      eexists _, _; (split; [reflexivity|done]). }
  cbn [fst snd].
  unfold mbind at 1, M_bind at 1.
  assert (Hverbose :
    match (if verbose then print_verbose input_filename width height tw th else mret ()) w with
    | Return _ w1 =>
        fs w1 = fs w
        ∧ if verbose then ∃ line : list frag, stdout w1 = (stdout w ++ [line])%list
          else w1 = w
    | Raise e w1 =>
        w1 = w ∧ verbose = true ∧ (width ≠ 0 → exn_class e = OverflowError)
    end).
  { destruct verbose; [|done].
    pose proof (print_verbose_outcome input_filename width height tw th w) as Ho.
    destruct (print_verbose _ _ _ _ _ w) as [[] w1|e w1] eqn:Hp.
    - by apply print_verbose_return in Hp.
    - destruct Ho as [-> Ho]. split; [done|]. split; [done|].
      intros Hw. destruct Ho as [[? _]|[(_ & _ & ?)|[_ ?]]]; done. }
  match goal with
  | |- context [(if verbose then ?a else ?b) w] =>
      destruct ((if verbose then a else b) w) as [[] w1|e w1]
  end.
  2:{ destruct Hverbose as (-> & -> & He). exists e, w. split; [done|]. split; [done|].
      split; [by left|].
      intros s resized [Hw _]%scale_ratio_ok _. right. auto. }
  destruct Hverbose as [Hfs Hout].
  assert (Hstdout : if verbose
                    then stdout w1 = stdout w
                         ∨ ∃ line : list frag, stdout w1 = (stdout w ++ [line])%list
                    else w1 = w).
  { destruct verbose; [by right|done]. }
  unfold mbind at 1, M_bind at 1.
  destruct (scale_ratio tw th width height) as [s|e].
  2:{ exists e, w1. split; [done|]. split; [done|]. split; [done|].
      intros s' r Hs. discriminate Hs. }
  cbn [lift]. unfold mret at 1, M_ret at 1.
  unfold mbind at 1, M_bind at 1.
  destruct (resized_size width height s) as [[rw rh]|e] eqn:Hresized.
  2:{ exists e, w1. split; [done|]. split; [done|]. split; [done|].
      intros s' r [= <-] Hr. congruence. }
  cbn [lift]. unfold mret at 1, M_ret at 1.
  eexists _, w1. split; [reflexivity|]. split; [done|]. split; [done|]. by left.
Qed.

Lemma Image_resize_err (im : image) (size : Z * Z) (e : exn) :
  Image_resize im size = Err e → exn_class e = ValueError.
Proof. unfold Image_resize. destruct (_ && _); [discriminate|by intros [= <-]]. Qed.

(** The pipeline on a file that holds a well-formed image: the two
    checks pass and lines 64 to 114 run. *)
Lemma convert_to_bmp_well_formed input_filename display_orientation display_dither verbose
    w im :
  fs w !! input_filename = Some (File (WellFormed im)) →
  convert_to_bmp input_filename display_orientation display_dither verbose w =
  (let '(width, height) := im_size im in
   let '(target_width, target_height) := target_size display_orientation width height in
   (if verbose
    then print_verbose input_filename width height target_width target_height
    else mret tt);;
   scale_ratio ← lift (scale_ratio target_width target_height width height);
   '(resized_width, resized_height) ← lift (resized_size width height scale_ratio);
   output_image ← lift (Image_resize im (resized_width, resized_height));
   Image_save (compose_and_quantize output_image target_width target_height
                                    resized_width resized_height display_dither)
              (output_filename_of input_filename display_orientation);;
   mret true) w.
Proof.
  intros Hfile. unfold convert_to_bmp.
  unfold mbind at 1, M_bind at 1. unfold os_path_isfile at 1, is_regular_file.
  rewrite Hfile. cbn [negb].
  unfold mbind at 1, M_bind at 1. rewrite is_valid_image_eq, Hfile. cbn [negb].
  unfold mbind at 1, M_bind at 1. unfold Image_open at 1. rewrite Hfile.
  reflexivity.
Qed.

(** What a run that returned [True] did: the input was a well-formed
    image, the geometry was computed without an exception, and the
    quantized canvas was written under the output name. *)
Lemma convert_to_bmp_true input_filename display_orientation display_dither verbose w w' :
  convert_to_bmp input_filename display_orientation display_dither verbose w = Return true w' →
  ∃ im s resized output_image,
    fs w !! input_filename = Some (File (WellFormed im))
    ∧ scale_ratio (target_size display_orientation (im_size im).1 (im_size im).2).1
                  (target_size display_orientation (im_size im).1 (im_size im).2).2
                  (im_size im).1 (im_size im).2 = Ok s
    ∧ resized_size (im_size im).1 (im_size im).2 s = Ok resized
    ∧ Image_resize im resized = Ok output_image
    ∧ fs w' = <[output_filename_of input_filename display_orientation :=
                  File (WellFormed
                          (compose_and_quantize output_image
                             (target_size display_orientation (im_size im).1 (im_size im).2).1
                             (target_size display_orientation (im_size im).1 (im_size im).2).2
                             resized.1 resized.2 display_dither))]> (fs w).
Proof.
  destruct (fs w !! input_filename) as [[d| |]|] eqn:Hfile.
  2-4: unfold convert_to_bmp, os_path_isfile, is_regular_file, print; unfold_monad;
       rewrite Hfile; cbn [negb]; discriminate.
  assert (Hrejected : is_valid_image input_filename w ≠ Return true w →
            convert_to_bmp input_filename display_orientation display_dither verbose w
            ≠ Return true w').
  { intros Hvalid. unfold convert_to_bmp. unfold mbind at 1, M_bind at 1.
    unfold os_path_isfile at 1, is_regular_file. rewrite Hfile. cbn [negb].
    unfold mbind at 1, M_bind at 1. revert Hvalid. rewrite is_valid_image_eq, Hfile.
    destruct d as [| | | | |e]; try done; try (intros _; unfold_monad; discriminate).
    destruct (isinstance e _); intros _; unfold_monad; discriminate. }
  destruct d as [im| | |im|im|e].
  2-4: intros Hrun; exfalso; revert Hrun; apply Hrejected;
       by rewrite is_valid_image_eq, Hfile.
  3:{ intros Hrun; exfalso; revert Hrun; apply Hrejected.
      rewrite is_valid_image_eq, Hfile. by destruct (isinstance e _). }
  2:{ destruct (convert_to_bmp_truncated_raises input_filename display_orientation
                  display_dither verbose w im Hfile) as (e & w1 & -> & _).
      discriminate. }
  clear Hrejected. rewrite (convert_to_bmp_well_formed _ _ _ _ _ _ Hfile).
  destruct (im_size im) as [width height] eqn:Hsize.
  destruct (target_size display_orientation width height) as [tw th] eqn:Htarget.
  cbn [fst snd].
  unfold mbind at 1, M_bind at 1.
  match goal with
  | |- context [(if verbose then ?a else ?b) w] =>
      destruct ((if verbose then a else b) w) as [[] w1|e w1] eqn:Hverbose; [|discriminate]
  end.
  assert (Hfs1 : fs w1 = fs w).
  { destruct verbose.
    - unfold print_verbose, print in Hverbose. unfold_monad.
      destruct (PyFloat.truediv height width); [|discriminate].
      destruct (PyFloat.truediv th tw); [|discriminate].
      by injection Hverbose as <-.
    - unfold_monad. by injection Hverbose as <-. }
  unfold mbind at 1, M_bind at 1.
  destruct (scale_ratio tw th width height) as [s|e] eqn:Hscale; [|discriminate].
  cbn [lift]. unfold mret at 1, M_ret at 1.
  unfold mbind at 1, M_bind at 1.
  destruct (resized_size width height s) as [[rw rh]|e] eqn:Hresized; [|discriminate].
  cbn [lift]. unfold mret at 1, M_ret at 1.
  unfold mbind at 1, M_bind at 1.
  destruct (Image_resize im (rw, rh)) as [output_image|e] eqn:Hresize; [|discriminate].
  cbn [lift]. unfold mret at 1, M_ret at 1.
  unfold mbind at 1, M_bind at 1. unfold Image_save.
  destruct (fs w1 !! _) as [[| |]|] eqn:Hout; try discriminate;
    unfold mret, M_ret; intros [= <-]; cbn [fs]; rewrite Hfs1;
    exists im, s, (rw, rh), output_image; rewrite Hsize; cbn [fst snd]; rewrite Htarget; done.
Qed.

(** How a run on a well-formed image can end, by the source dimensions. *)
Lemma convert_to_bmp_by_dimensions input_filename display_orientation display_dither verbose
    w im :
  fs w !! input_filename = Some (File (WellFormed im)) →
  match convert_to_bmp input_filename display_orientation display_dither verbose w with
  | Return _ _ => (im_size im).1 ≠ 0 ∧ (im_size im).2 ≠ 0
  | Raise e w' =>
      ((im_size im).1 = 0 ∧ e = Exn ZeroDivisionError (PStr "division by zero") ∧ w' = w)
      ∨ ((im_size im).1 ≠ 0 ∧ (im_size im).2 = 0
         ∧ (exn_class e = ZeroDivisionError ∨ exn_class e = OverflowError))
      ∨ ((im_size im).1 ≠ 0 ∧ (im_size im).2 ≠ 0 ∧ exn_class e ≠ ZeroDivisionError)
  end.
Proof.
  intros Hfile. rewrite (convert_to_bmp_well_formed _ _ _ _ _ _ Hfile).
  destruct (im_size im) as [width height]. cbn [fst snd].
  assert (∃ tw th, target_size display_orientation width height = (tw, th) ∧ tw ≠ 0)
    as (tw & th & -> & Htw).
  { destruct (target_size_cases display_orientation width height) as [->| ->];
      eexists _, _; (split; [reflexivity|done]). }
  unfold mbind at 1, M_bind at 1.
  assert (Hverbose :
    match (if verbose then print_verbose input_filename width height tw th else mret ()) w with
    | Return _ w1 => width = 0 → w1 = w
    | Raise e w1 =>
        w1 = w
        ∧ ((width = 0 ∧ e = Exn ZeroDivisionError (PStr "division by zero"))
           ∨ (width ≠ 0 ∧ exn_class e = OverflowError))
    end).
  { destruct verbose; [|done].
    pose proof (print_verbose_outcome input_filename width height tw th w) as Hp.
    destruct (print_verbose _ _ _ _ _ w); [tauto|].
    destruct Hp as [-> [?|[(? & ? & ?)|[? ?]]]]; [auto|auto|done]. }
  match goal with
  | |- context [(if verbose then ?a else ?b) w] =>
      destruct ((if verbose then a else b) w) as [[] w1|e w1]
  end.
  2:{ destruct Hverbose as [-> [[-> ->]|[Hw He]]]; [by left|].
      destruct (decide (height = 0)) as [->|Hh]; [right; left; auto|].
      right; right. rewrite He. done. }
  unfold mbind at 1, M_bind at 1.
  destruct (scale_ratio tw th width height) as [s|e] eqn:Hscale.
  2:{ cbn [lift]. unfold raise.
      apply scale_ratio_err in Hscale as [[-> ->]|[(Hw & -> & [->|He])|(Hw & Hh & He)]].
      - left. by rewrite Hverbose.
      - right; left. auto.
      - right; left. auto.
      - right; right. rewrite He. done. }
  apply scale_ratio_ok in Hscale as [Hw Hh].
  cbn [lift]. unfold mret at 1, M_ret at 1.
  unfold mbind at 1, M_bind at 1.
  destruct (resized_size width height s) as [[rw rh]|e] eqn:Hresized.
  2:{ cbn [lift]. unfold raise. right; right.
      apply resized_size_err in Hresized as [->| ->]; done. }
  cbn [lift]. unfold mret at 1, M_ret at 1.
  unfold mbind at 1, M_bind at 1.
  destruct (Image_resize im (rw, rh)) as [output_image|e] eqn:Hresize.
  2:{ cbn [lift]. unfold raise. right; right.
      apply Image_resize_err in Hresize as ->. done. }
  cbn [lift]. unfold mret at 1, M_ret at 1.
  unfold mbind at 1, M_bind at 1. unfold Image_save.
  destruct (fs w1 !! _) as [[| |[]]|]; cbn; auto.
Qed.

(** C9, as the script behaves.  [convert_to_bmp] has no check of its own
    for a source without width or height.  A file that [is_valid_image]
    rejects is refused before any division; but an image that passes
    with zero width raises [ZeroDivisionError] at the first division by
    the width, one with zero height does not get past the scale
    computation either ([ZeroDivisionError] at the division by the
    height, unless the float arithmetic before it raised
    [OverflowError]), and only when both dimensions are nonzero is no
    [ZeroDivisionError] raised. *)
Theorem zero_dimension_reaches_division input_filename display_orientation display_dither
    verbose w :
  (∀ w1, is_valid_image input_filename w = Return false w1 →
         ∃ w', convert_to_bmp input_filename display_orientation display_dither verbose w
               = Return false w')
  ∧ ∀ im, fs w !! input_filename = Some (File (WellFormed im)) →
      ((im_size im).1 = 0 →
         convert_to_bmp input_filename display_orientation display_dither verbose w
         = Raise (Exn ZeroDivisionError (PStr "division by zero")) w)
      ∧ ((im_size im).2 = 0 →
           ∃ e w', convert_to_bmp input_filename display_orientation display_dither verbose w
                   = Raise e w'
                   ∧ (exn_class e = ZeroDivisionError ∨ exn_class e = OverflowError))
      ∧ ((im_size im).1 ≠ 0 → (im_size im).2 ≠ 0 →
           ∀ e w', convert_to_bmp input_filename display_orientation display_dither verbose w
                   = Raise e w' → exn_class e ≠ ZeroDivisionError).
Proof.
  split.
  - intros w1 Hvalid. unfold convert_to_bmp.
    unfold mbind at 1, M_bind at 1. unfold os_path_isfile at 1.
    destruct (is_regular_file w input_filename); cbn [negb].
    + unfold mbind at 1, M_bind at 1. rewrite Hvalid. cbn [negb]. eexists. reflexivity.
    + eexists. reflexivity.
  - intros im Hfile.
    pose proof (convert_to_bmp_by_dimensions input_filename display_orientation
                  display_dither verbose w im Hfile) as Hdim.
    destruct (convert_to_bmp _ _ _ _ w) as [b w'|e w'].
    + destruct Hdim as [Hw Hh]. repeat split; try done.
    + split; [|split].
      * intros Hw. destruct Hdim as [(_ & -> & ->)|[(? & _)|(? & _)]]; done.
      * intros Hh. exists e, w'. split; [done|].
        destruct Hdim as [(_ & -> & _)|[(_ & _ & ?)|(_ & ? & _)]]; [by left|done|done].
      * intros Hw Hh e' w'' [= <- <-].
        destruct Hdim as [(? & _)|[(_ & ? & _)|(_ & _ & ?)]]; done.
Qed.

(** C3. After a successful conversion every pixel of the saved image is
    one of the seven panel colours.  The palette handed to [putpalette]
    has 256 entries: the seven colours, then black 249 times. *)
Theorem output_pixels_in_palette input_filename display_orientation display_dither verbose
    w w' :
  convert_to_bmp input_filename display_orientation display_dither verbose w = Return true w' →
  length palette_data = 768%nat
  ∧ map (palette_entry palette_data) (seq 0 7) = panel_colours
  ∧ (∀ i, (7 ≤ i < 256)%nat → palette_entry palette_data i = (0, 0, 0))
  ∧ ∃ out,
      fs w' !! output_filename_of input_filename display_orientation
      = Some (File (WellFormed out))
      ∧ ∀ x y, im_pixel out x y ∈ panel_colours.
Proof.
  intros (im & s & resized & output_image & _ & _ & _ & _ & Hfs)%convert_to_bmp_true.
  split; [reflexivity|]. split; [reflexivity|]. split.
  - intros i Hi.
    assert (Hall : Forall (λ i, palette_entry palette_data i = (0, 0, 0)) (seq 7 249)).
    { apply (bool_decide_unpack _). vm_compute. exact I. }
    rewrite Forall_forall in Hall. apply Hall, elem_of_seq. lia.
  - eexists. split; [rewrite Hfs; apply lookup_insert_eq|].
    intros x y. cbn [compose_and_quantize Image_convert_RGB im_pixel].
    apply list_elem_of_In.
    generalize (p_index
                  (Image_quantize
                     (Image_paste
                        (Image_new_RGB
                           ((target_size display_orientation (im_size im).1 (im_size im).2).1,
                            (target_size display_orientation (im_size im).1 (im_size im).2).2)
                           (255, 255, 255))
                        output_image
                        (paste_offset
                           (target_size display_orientation (im_size im).1 (im_size im).2).1
                           (target_size display_orientation (im_size im).1 (im_size im).2).2
                           resized.1 resized.2))
                     display_dither (Image_new_P_putpalette (1, 1) palette_data)) x y).
    cbn [Image_quantize p_palette Image_new_P_putpalette].
    intros b. destruct b; vm_compute; tauto.
Qed.

(** C4. The canvas is 800x480 for 'landscape', 480x800 for 'portrait';
    without an orientation it is 800x480 exactly when the source is
    wider than high, 480x800 otherwise.  A successful run saves an image
    of that size. *)
Theorem target_size_by_orientation (width height : Z) :
  target_size (PStr "landscape") width height = (800, 480)
  ∧ target_size (PStr "portrait") width height = (480, 800)
  ∧ (∀ display_orientation, truthy display_orientation = false →
       target_size display_orientation width height
       = if bool_decide (width > height) then (800, 480) else (480, 800))
  ∧ (∀ input_filename display_orientation display_dither verbose w w',
       convert_to_bmp input_filename display_orientation display_dither verbose w
       = Return true w' →
       ∃ im out,
         fs w !! input_filename = Some (File (WellFormed im))
         ∧ fs w' !! output_filename_of input_filename display_orientation
           = Some (File (WellFormed out))
         ∧ im_size out = target_size display_orientation (im_size im).1 (im_size im).2).
Proof.
  split; [reflexivity|]. split; [reflexivity|]. split.
  - intros o Ho. unfold target_size, orientation_branch. rewrite Ho, Z.gtb_ltb.
    case_bool_decide; destruct (height <? width) eqn:Hlt; try reflexivity.
    + apply Z.ltb_ge in Hlt. lia.
    + apply Z.ltb_lt in Hlt. lia.
  - intros fn o d v w w'
      (im & s & resized & output_image & Hin & _ & _ & _ & Hfs)%convert_to_bmp_true.
    eexists im, _. split; [done|]. split; [rewrite Hfs; apply lookup_insert_eq|].
    cbn. by destruct (target_size o _ _).
Qed.

(** C5. After a successful conversion the output sits under the input
    path with its extension replaced by [.6b8.bmp] when the orientation
    flag is 'landscape' and by [.8b6.bmp] for every other value, and
    this save is the only change to the files.  The extension that is
    replaced starts at the last dot of the file name, the part after the
    last slash, and only when something other than dots precedes that
    dot in the name; a name without such a dot has no extension, and the
    suffix is appended to the whole path; every path is of one of these
    two shapes.  The suffix follows the flag:
    a wide source converted with automatic orientation gets the 800x480
    canvas and still the name in [.8b6.bmp]. *)
Theorem output_filename_by_flag input_filename display_orientation display_dither verbose
    w w' :
  convert_to_bmp input_filename display_orientation display_dither verbose w = Return true w' →
  let suffix := if bool_decide (display_orientation = PStr "landscape")
                then ".6b8.bmp" else ".8b6.bmp" in
  let root := (os_path_splitext input_filename).1 in
  let name := root +:+ suffix in
  root +:+ (os_path_splitext input_filename).2 = input_filename
  ∧ (∃ out, fs w' = <[name := File (WellFormed out)]> (fs w))
  ∧ (∀ dir stem ext,
       input_filename = dir +:+ stem +:+ "." +:+ ext →
       directory_prefix dir = true →
       lacks "/"%char stem = true → all_dots stem = false →
       lacks "/"%char ext = true → lacks "."%char ext = true →
       root = dir +:+ stem ∧ name = dir +:+ stem +:+ suffix)
  ∧ (∀ dir dots rest,
       input_filename = dir +:+ dots +:+ rest →
       directory_prefix dir = true → all_dots dots = true →
       lacks "/"%char rest = true → lacks "."%char rest = true →
       root = input_filename ∧ name = input_filename +:+ suffix)
  ∧ ((∃ dir stem ext,
        input_filename = dir +:+ stem +:+ "." +:+ ext
        ∧ directory_prefix dir = true
        ∧ lacks "/"%char stem = true ∧ all_dots stem = false
        ∧ lacks "/"%char ext = true ∧ lacks "."%char ext = true)
     ∨ (∃ dir dots rest,
          input_filename = dir +:+ dots +:+ rest
          ∧ directory_prefix dir = true ∧ all_dots dots = true
          ∧ lacks "/"%char rest = true ∧ lacks "."%char rest = true))
  ∧ (∀ im, fs w !! input_filename = Some (File (WellFormed im)) →
           truthy display_orientation = false →
           (im_size im).1 > (im_size im).2 →
           target_size display_orientation (im_size im).1 (im_size im).2 = (800, 480)
           ∧ name = root +:+ ".8b6.bmp").
Proof.
  intros (im & s & resized & output_image & Hin & _ & _ & _ & Hfs)%convert_to_bmp_true.
  intros suffix root name.
  assert (Hname : output_filename_of input_filename display_orientation = name).
  { unfold output_filename_of, name, root, suffix.
    case_bool_decide as Ho.
    - by rewrite (proj2 (py_eq_str_true _ _) Ho).
    - destruct (py_eq_str _ _) eqn:Heq; [|done].
      by apply py_eq_str_true in Heq. }
  rewrite Hname in Hfs.
  split; [apply os_path_splitext_app|]. split; [by eexists|].
  split; [|split; [|split; [apply path_shapes|]]].
  - intros dir stem ext -> Hdir Hstem Hdots Hext_slash Hext_dot.
    unfold name, root.
    rewrite (os_path_splitext_ext dir stem ext) by done. cbn [fst].
    by rewrite append_assoc.
  - intros dir dots rest -> Hdir Hdots Hrest_slash Hrest_dot.
    unfold name, root.
    by rewrite (os_path_splitext_no_ext dir dots rest).
  - intros im' _ Hauto Hwide. split.
    + destruct (target_size_by_orientation_auto display_orientation
                  (im_size im').1 (im_size im').2 Hauto) as [Hw _]. by apply Hw.
    + unfold name, suffix. case_bool_decide as Ho; [|done]. by rewrite Ho in Hauto.
Qed.

End Pipeline.

Lemma sample_conversion :
  convert_to_bmp (H:=nearest_kernels) "photo.jpg" PNone FLOYDSTEINBERG false sample_world
  = Return true sample_world_converted.
Proof. reflexivity. Qed.

Lemma output_pixels_in_palette_witness :
  ∃ out, fs sample_world_converted !! "photo.8b6.bmp" = Some (File (WellFormed out))
         ∧ ∀ x y, im_pixel out x y ∈ panel_colours.
Proof.
  apply (output_pixels_in_palette (H:=nearest_kernels) "photo.jpg" PNone FLOYDSTEINBERG false
           sample_world sample_world_converted).
  reflexivity.
Defined.

Lemma target_size_by_orientation_witness :
  target_size PNone 1200 800 = (800, 480)
  ∧ ∃ out, fs sample_world_converted !! "photo.8b6.bmp" = Some (File (WellFormed out))
           ∧ im_size out = (800, 480).
Proof.
  destruct (target_size_by_orientation (H:=nearest_kernels) 1200 800)
    as (_ & _ & Hauto & Hrun).
  split; [apply (Hauto PNone); reflexivity|].
  destruct (Hrun "photo.jpg" PNone FLOYDSTEINBERG false sample_world sample_world_converted)
    as (im & out & Him & Hout & Hsize); [reflexivity|].
  exists out. split; [exact Hout|].
  rewrite Hsize. injection Him as <-. reflexivity.
Defined.

Lemma output_filename_by_flag_witness :
  (os_path_splitext "photo.jpg").1 = "photo"
  ∧ ∃ out, fs sample_world_converted
           = <["photo.8b6.bmp" := File (WellFormed out)]> (fs sample_world).
Proof.
  destruct (output_filename_by_flag (H:=nearest_kernels) "photo.jpg" PNone FLOYDSTEINBERG
              false sample_world sample_world_converted)
    as (_ & Hsave & Hext & _); [reflexivity|].
  destruct (Hext "" "photo" "jpg") as [Hroot Hname]; try reflexivity.
  split; [exact Hroot|]. rewrite Hname in Hsave. exact Hsave.
Defined.

(** ** The batch driver *)

Section Batch.

Context `{Pillow}.

Lemma filterM_isfile (g : string → string) (l : list string) (w : world) :
  filterM (λ f, os_path_isfile (g f)) l w
  = Return (List.filter (λ f, is_regular_file w (g f)) l) w.
Proof.
  induction l as [|f l IH]; [done|].
  cbn [filterM List.filter]. unfold mbind at 1, M_bind at 1. unfold os_path_isfile at 1.
  unfold mbind at 1, M_bind at 1. rewrite IH. reflexivity.
Qed.

Lemma list_filenames_eq (directory : string) (w : world) :
  list_filenames directory w =
  match fs w !! directory with
  | Some (Dir entries true) =>
      Return (List.filter (λ f, is_regular_file w (os_path_join directory f)) entries) w
  | Some (Dir _ false) =>
      Return [] (World (fs w)
                       (stdout w ++ [[Lit "Error: Permission denied to access '";
                                      FVal (PStr directory); Lit "'."]]))
  | Some (File _) => Raise (Exn NotADirectoryError (PStr directory)) w
  | Some (Inaccessible NoSearchPermission) =>
      Return [] (World (fs w)
                       (stdout w ++ [[Lit "Error: Permission denied to access '";
                                      FVal (PStr directory); Lit "'."]]))
  | Some (Inaccessible a) => Raise (access_exn a directory) w
  | None =>
      Return [] (World (fs w)
                       (stdout w ++ [[Lit "Error: The directory '"; FVal (PStr directory);
                                      Lit "' was not found."]]))
  end.
Proof.
  unfold list_filenames, try_except. unfold mbind at 1, M_bind at 1. unfold os_listdir.
  destruct (fs w !! directory) as [[|entries []|[]]|]; try reflexivity.
  unfold mbind at 1, M_bind at 1. by rewrite filterM_isfile.
Qed.

Lemma successes_cons (ok : bool) (oks : list bool) :
  successes (ok :: oks) = (if ok then 1 else 0) + successes oks.
Proof. unfold successes. destruct ok; cbn [List.filter id length]; lia. Qed.

Lemma successes_bound (oks : list bool) : 0 ≤ successes oks ≤ Z.of_nat (length oks).
Proof.
  induction oks as [|ok oks IH]; [done|].
  rewrite successes_cons. cbn [length]. destruct ok; lia.
Qed.

Lemma convert_files_runs filename orientation dither verbose files converted_files w n w' :
  convert_files filename orientation dither verbose files converted_files w = Return n w' →
  ∃ oks,
    pipeline_runs orientation dither verbose
                  (map (λ file, filename +:+ "/" +:+ file) files) w oks w'
    ∧ n = converted_files + successes oks
    ∧ length oks = length files.
Proof.
  revert converted_files w. induction files as [|file files IH]; intros acc w.
  - intros [= <- <-]. exists []. split; [constructor|]. split; [unfold successes; cbn; lia|done].
  - cbn [convert_files]. unfold mbind at 1, M_bind at 1.
    destruct (convert_to_bmp _ _ _ _ w) as [ok w1|e w1] eqn:Hrun; [|discriminate].
    intros (oks & Hruns & -> & Hlen)%IH.
    exists (ok :: oks). split; [by econstructor|].
    rewrite successes_cons. split; [destruct ok; lia|cbn; lia].
Qed.

(** C7, as the script behaves.  When the directory can be listed,
    [total] is the number of regular files directly inside it; when
    [os.listdir] raises [FileNotFoundError] or [PermissionError] the
    list is empty and [total] is 0.  Every listed file goes through the
    pipeline under the name [filename + '/' + file], one after the
    other; [converted] counts the runs that answered [True], so
    [converted <= total]; both numbers make the summary line. *)
Theorem convert_directory_report filename orientation dither verbose w converted total w' :
  convert_directory filename orientation dither verbose w = Return (converted, total) w' →
  ∃ files oks w1 w2,
    list_filenames filename w = Return files w1
    ∧ match fs w !! filename with
      | Some (Dir _ true) => files = regular_files_inside w filename ∧ w1 = w
      | _ => files = []
      end
    ∧ total = Z.of_nat (length files)
    ∧ pipeline_runs orientation dither verbose
                    (map (λ file, filename +:+ "/" +:+ file) files) w1 oks w2
    ∧ length oks = length files
    ∧ converted = successes oks
    ∧ 0 ≤ converted ≤ total
    ∧ w' = World (fs w2)
                 (stdout w2 ++ [[Lit "Converted "; FInt converted; Lit " from ";
                                 FInt total]]).
Proof.
  unfold convert_directory. unfold mbind at 1, M_bind at 1.
  pose proof (list_filenames_eq filename w) as Hlist.
  destruct (list_filenames filename w) as [files w1|e w1]; [|discriminate].
  unfold mbind at 1, M_bind at 1.
  destruct (convert_files _ _ _ _ files 0 w1) as [n w2|e w2] eqn:Hruns; [|discriminate].
  apply convert_files_runs in Hruns as (oks & Hruns & -> & Hlen).
  unfold print. unfold_monad. intros [= <- <- <-].
  exists files, oks, w1, w2. split; [done|]. split.
  { unfold regular_files_inside.
    destruct (fs w !! filename) as [[|entries []|[]]|]; try discriminate;
      injection Hlist as ? ?; by subst. }
  pose proof (successes_bound oks). rewrite Hlen in *.
  repeat split; try done; lia.
Qed.

End Batch.

(** ** The command line *)

Section CommandLine.

Import Argparse.

Lemma store_ok (a : action) (v : pyval) (ns : gmap string pyval) :
a ∈ parser → orient_value_ok a v → namespace_ok ns → namespace_ok (<[dest a := v]> ns).
Proof.
intros Ha Hv (Hmode & Himage & Horient).
unfold parser, image_file_argument, orient_argument, dither_argument,
  verbose_argument in Ha.
repeat (apply elem_of_cons in Ha as [->|Ha]); [..|by apply elem_of_nil in Ha];
  cbn [dest] in *; (split; [|split]);
  rewrite ?lookup_insert_eq, ?lookup_insert_ne by done; try done.
destruct (Hv eq_refl) as [->| ->]; auto.
Qed.

Lemma get_value_return (a : action) (s : string) (w : world) (v : pyval) (w' : world) :
a ∈ parser → get_value a s w = Return v w' → w' = w ∧ orient_value_ok a v.
Proof.
intros Ha. unfold parser, image_file_argument, orient_argument, dither_argument,
  verbose_argument in Ha.
repeat (apply elem_of_cons in Ha as [->|Ha]); [..|by apply elem_of_nil in Ha];
  unfold get_value, orient_value_ok; cbn [type_ choices dest]; unfold_monad.
- by intros [= <- <-].
- unfold type_str. cbn [existsb py_eq].
  destruct (String.eqb s "landscape") eqn:E1; [apply String.eqb_eq in E1 as ->|].
  { intros [= <- <-]. auto. }
  destruct (String.eqb s "portrait") eqn:E2; [apply String.eqb_eq in E2 as ->|].
  { intros [= <- <-]. auto. }
  discriminate.
- destruct (type_int s); [|discriminate]. destruct (existsb _ _); [|discriminate].
  by intros [= <- <-].
- by intros [= <- <-].
Qed.

Lemma get_value_raise (a : action) (s : string) (w : world) (e : exn) (w' : world) :
get_value a s w = Raise e w' → exn_class e = SystemExit.
Proof.
unfold get_value, error. unfold_monad.
destruct (type_ a s); [|by intros [= <- _]].
destruct (choices a); [destruct (existsb _ _)|]; try discriminate; by intros [= <- _].
Qed.

Lemma const_value_return (a : action) (w : world) (v : pyval) (w' : world) :
a ∈ parser → const_value a w = Return v w' → w' = w ∧ orient_value_ok a v.
Proof.
intros Ha. unfold const_value.
destruct (const a) eqn:Hc; try (unfold_monad; intros [= <- <-]; split; [done|]).
4: by apply get_value_return.
all: unfold parser, image_file_argument, orient_argument, dither_argument,
  verbose_argument in Ha;
  repeat (apply elem_of_cons in Ha as [->|Ha]); [..|by apply elem_of_nil in Ha];
  unfold orient_value_ok; cbn in *; try discriminate; done.
Qed.

Lemma const_value_raise (a : action) (w : world) (e : exn) (w' : world) :
const_value a w = Raise e w' → exn_class e = SystemExit.
Proof.
unfold const_value. destruct (const a); try discriminate. apply get_value_raise.
Qed.

Lemma take_help_raise {A} (o : string) (x : option string) (w : world) :
∃ e w', take_help (A:=A) o x w = Raise e w' ∧ exn_class e = SystemExit.
Proof.
unfold take_help, error, print. unfold_monad.
destruct x as [s|]; [destruct (_ && _)|]; eauto.
Qed.

Lemma find_action_elem (actions : list action) (o : string) (a : action) :
find_action actions o = Some a → a ∈ actions.
Proof. intros Hf%find_some. apply list_elem_of_In, Hf. Qed.

Lemma after_positional_length (rest : list token) :
(length (after_positional rest) ≤ length rest)%nat.
Proof. destruct rest as [|[] rest]; cbn; lia. Qed.

Lemma consume_ok (n : nat) :
∀ tokens st w, (length tokens ≤ n)%nat → state_ok st →
  match consume parser tokens st w with
  | Return st' w' => w' = w ∧ namespace_ok (namespace st')
  | Raise e _ => exn_class e = SystemExit
  end.
Proof.
induction n as [|n IH]; intros tokens st w Hlen [Hns Hpos].
{ destruct tokens; [|cbn in Hlen; lia]. cbn. done. }
destruct tokens as [|t rest]; [done|]. cbn [length] in Hlen.
destruct t as [s| |o x|s]; cbn [consume].
- destruct (positionals st) as [|a positionals'] eqn:Hp.
  + apply IH; [lia|]. split; [done|]. cbn. constructor.
  + apply Forall_cons in Hpos as [Ha Hpos'].
    unfold mbind at 1, M_bind at 1.
    destruct (get_value a s w) as [v w1|e w1] eqn:Hv.
    * apply get_value_return in Hv as [-> Hv]; [|done].
      apply IH; [pose proof (after_positional_length rest); lia|].
      split; cbn; [by apply store_ok|done].
    * by apply get_value_raise in Hv.
- destruct (positionals st) as [|a positionals'] eqn:Hp;
    [|destruct rest as [|[s| |o x|s] rest'] eqn:Hrest];
    (apply IH; [cbn [length] in *; lia|]); split; cbn; try done; by rewrite Hp.
- destruct (find_action parser o) as [a|] eqn:Hfind.
  2:{ destruct (take_help_raise (A:=state) o x w) as (e & w' & -> & He). done. }
  apply find_action_elem in Hfind.
  destruct x as [e|].
  + unfold mbind at 1, M_bind at 1.
    destruct (String.eqb e "--" && optional_value a).
    * destruct (const_value a w) as [v w1|e' w1] eqn:Hv.
      -- apply const_value_return in Hv as [-> Hv]; [|done].
         apply IH; [lia|]. split; cbn; [by apply store_ok|done].
      -- by apply const_value_raise in Hv.
    * destruct (get_value a e w) as [v w1|e' w1] eqn:Hv.
      -- apply get_value_return in Hv as [-> Hv]; [|done].
         apply IH; [lia|]. split; cbn; [by apply store_ok|done].
      -- by apply get_value_raise in Hv.
  + assert (Hconst :
      match (if optional_value a
             then v ← const_value a; consume parser rest (store a v st)
             else error) w with
      | Return st' w' => w' = w ∧ namespace_ok (namespace st')
      | Raise e _ => exn_class e = SystemExit
      end).
    { destruct (optional_value a); [|done].
      unfold mbind at 1, M_bind at 1.
      destruct (const_value a w) as [v w1|e' w1] eqn:Hv.
      - apply const_value_return in Hv as [-> Hv]; [|done].
        apply IH; [lia|]. split; cbn; [by apply store_ok|done].
      - by apply const_value_raise in Hv. }
    destruct rest as [|[s| |o' x'|s] rest']; try exact Hconst.
    unfold mbind at 1, M_bind at 1.
    destruct (get_value a s w) as [v w1|e' w1] eqn:Hv.
    * apply get_value_return in Hv as [-> Hv]; [|done].
      apply IH; [cbn [length] in Hlen; lia|]. split; cbn; [by apply store_ok|done].
    * by apply get_value_raise in Hv.
- apply IH; [lia|done].
Qed.

Lemma default_value_ok (a : action) (d : string) (v : pyval) :
a ∈ parser → default a = PStr d → type_ a d = Ok v → orient_value_ok a v.
Proof.
intros Ha. unfold parser, image_file_argument, orient_argument, dither_argument,
  verbose_argument in Ha.
repeat (apply elem_of_cons in Ha as [->|Ha]); [..|by apply elem_of_nil in Ha];
  unfold orient_value_ok; cbn; try discriminate.
intros [= <-] [= <-]. auto.
Qed.

Lemma convert_defaults_ok (actions : list action) (seen : list string)
  (ns : gmap string pyval) (w : world) :
Forall (λ a, a ∈ parser) actions → namespace_ok ns →
match convert_defaults actions seen ns w with
| Return ns' w' => w' = w ∧ namespace_ok ns'
| Raise e _ => exn_class e = SystemExit
end.
Proof.
intros Hall. revert ns. induction Hall as [|a actions Ha Hall IH]; intros ns Hns; [done|].
cbn [convert_defaults].
destruct (default a) as [| | |d] eqn:Hd; try by apply IH.
case_bool_decide; [by apply IH|].
destruct (type_ a d) as [v|e] eqn:Hv; [|done].
apply IH, store_ok; [done| |done]. by eapply default_value_ok.
Qed.

Lemma parse_args_ok (argv : list string) (w : world) :
match parse_args parser argv w with
| Return args w' => w' = w ∧ namespace_ok args
| Raise e _ => exn_class e = SystemExit
end.
Proof.
unfold parse_args.
destruct (classify _ argv) as [tokens|]; [|done].
unfold mbind at 1, M_bind at 1.
match goal with
| |- context [consume parser tokens ?st w] =>
    pose proof (consume_ok (length tokens) tokens st w (Nat.le_refl _)) as Hc;
    destruct (consume parser tokens st w) as [st' w1|e w1]
end.
2:{ apply Hc. split; [by split; [|split; [|right]]|]. by repeat constructor. }
destruct Hc as [-> Hns]. { split; [by split; [|split; [|right]]|]. by repeat constructor. }
unfold mbind at 1, M_bind at 1.
pose proof (convert_defaults_ok parser (seen st') (namespace st') w) as Hd.
destruct (convert_defaults parser (seen st') (namespace st') w) as [ns w2|e w2].
2:{ apply Hd; [|done]. unfold parser. repeat constructor; set_solver. }
destruct Hd as [-> Hns']; [unfold parser; repeat constructor; set_solver|done|].
destruct (positionals st'); [destruct (extras st')|]; done.
Qed.

(** C10. Whatever the command line, the [orient] the parser returns is
  'landscape' or 'portrait': the default and the value stored for a
  bare [--orient] are both 'portrait', and a given value passes
  [choices].  It is truthy, so [convert_to_bmp] takes the arm for an
  explicit orientation and never compares width and height. *)
Theorem parsed_orient_is_explicit (argv : list string) (w : world)
  (args : gmap string pyval) (w' : world) :
parse_args parser argv w = Return args w' →
default orient_argument = PStr "portrait"
∧ const orient_argument = PStr "portrait"
∧ ∃ v, args !! "orient" = Some v
       ∧ (v = PStr "landscape" ∨ v = PStr "portrait")
       ∧ truthy v = true
       ∧ orientation_branch v = ExplicitOrientation
       ∧ ∀ width height,
           target_size v width height
           = if bool_decide (v = PStr "landscape") then (800, 480) else (480, 800).
Proof.
intros Hparse. pose proof (parse_args_ok argv w) as Hok. rewrite Hparse in Hok.
destruct Hok as (_ & _ & _ & Horient).
split; [reflexivity|]. split; [reflexivity|].
destruct Horient as [Hv|Hv]; eexists; (split; [exact Hv|]); auto.
Qed.

Lemma parsed_orient_is_explicit_witness :
(∃ v, sample_namespace !! "orient" = Some v
      ∧ (v = PStr "landscape" ∨ v = PStr "portrait"))
∧ parse_args parser ["photo.jpg"; "--orient"] sample_world
  = parse_args parser ["photo.jpg"] sample_world.
Proof.
split; [|reflexivity].
destruct (parsed_orient_is_explicit ["photo.jpg"] sample_world sample_namespace
            sample_world) as (_ & _ & v & Hv & Hchoice & _).
- vm_compute. reflexivity.
- exists v. split; [exact Hv|exact Hchoice].
Defined.

End CommandLine.

Section TopLevel.

Context `{Pillow}.

(** C1, as the script behaves.  When the parser accepts the command
    line, reading [args.mode] raises [AttributeError] before anything is
    printed; when it does not (or prints the help), [parse_args] ends the
    run with [SystemExit].  In both cases the exception leaves
    [read_parameters]: whatever follows line 138, the batch driver and
    with it the per-file pipeline, never runs. *)
Theorem main_stops_before_driver (argv : list string) (w : world) :
  ∃ e w',
    read_parameters argv w = Raise e w'
    ∧ (∀ rest : parameters → M Z, (p ← read_parameters argv; rest p) w = Raise e w')
    ∧ main argv w = Raise e w'
    ∧ ((∃ args, Argparse.parse_args parser argv w = Return args w
                ∧ e = Exn AttributeError
                          (PStr "'Namespace' object has no attribute 'mode'")
                ∧ w' = w)
       ∨ (Argparse.parse_args parser argv w = Raise e w' ∧ exn_class e = SystemExit)).
Proof.
  assert (∃ e w',
            read_parameters argv w = Raise e w'
            ∧ ((∃ args, Argparse.parse_args parser argv w = Return args w
                        ∧ e = Exn AttributeError
                                  (PStr "'Namespace' object has no attribute 'mode'")
                        ∧ w' = w)
               ∨ (Argparse.parse_args parser argv w = Raise e w'
                  ∧ exn_class e = SystemExit)))
    as (e & w' & Hread & Hcases).
  { pose proof (parse_args_ok argv w) as Hok.
    unfold read_parameters. unfold mbind at 1, M_bind at 1.
    destruct (Argparse.parse_args parser argv w) as [args w1|e w1] eqn:Hparse.
    - destruct Hok as (-> & Hmode & [image Himage] & Horient).
      assert (∃ v, args !! "orient" = Some v) as [orient Horient'].
      { destruct Horient; eauto. }
      exists (Exn AttributeError (PStr "'Namespace' object has no attribute 'mode'")), w.
      unfold getattr, mbind, M_bind, mret, M_ret, raise.
      rewrite Himage, Horient', Hmode.
      split; [reflexivity|]. left. by exists args.
    - exists e, w1. split; [reflexivity|]. by right. }
  exists e, w'. split; [done|].
  assert (Hrest : ∀ rest : parameters → M Z,
            (p ← read_parameters argv; rest p) w = Raise e w').
  { intros rest. unfold mbind, M_bind. by rewrite Hread. }
  split; [done|]. split; [apply Hrest|done].
Qed.

End TopLevel.

(** ** The script on sample inputs *)

(** C1: without arguments the parser ends the run with a usage error;
    no [AttributeError] is raised. *)
Lemma no_arguments_is_a_usage_error :
  main (H:=nearest_kernels) [] sample_world = Raise (Exn SystemExit (PInt 2)) sample_world
  ∧ ¬ ∃ a w', main (H:=nearest_kernels) [] sample_world = Raise (Exn AttributeError a) w'.
Proof.
  assert (Hrun : main (H:=nearest_kernels) [] sample_world
                 = Raise (Exn SystemExit (PInt 2)) sample_world) by reflexivity.
  split; [exact Hrun|]. rewrite Hrun. intros (a & w' & [=]).
Qed.

(** C6: an exception that is neither an [IOError] nor a [SyntaxError]
    leaves [is_valid_image], here the [DecompressionBombError] of
    [Image.open]; and a photograph cut short after its header is
    reported valid and fails when [resize] loads it. *)
Lemma validation_lets_bomb_and_truncated_file_through :
  is_valid_image "huge.png" bomb_world
  = Raise (Exn DecompressionBombError (PStr "Image size exceeds limit")) bomb_world
  ∧ is_valid_image "cut.jpg" truncated_world = Return true truncated_world
  ∧ convert_to_bmp (H:=nearest_kernels) "cut.jpg" PNone FLOYDSTEINBERG false truncated_world
    = Raise (Exn OSError (PStr "image file is truncated")) truncated_world.
Proof. split; [reflexivity|]. split; reflexivity. Qed.

(** C9: an image without width passes the validation and the scale
    computation divides by zero. *)
Lemma zero_width_image_divides_by_zero :
  is_valid_image "flat.png" flat_world = Return true flat_world
  ∧ convert_to_bmp (H:=nearest_kernels) "flat.png" (PStr "portrait") FLOYDSTEINBERG false
                   flat_world
    = Raise (Exn ZeroDivisionError (PStr "division by zero")) flat_world.
Proof. split; reflexivity. Qed.

Lemma zero_dimension_reaches_division_witness :
  ∃ e w', convert_to_bmp (H:=nearest_kernels) "flat.png" PNone NONE true flat_world = Raise e w'
          ∧ exn_class e = ZeroDivisionError.
Proof.
  destruct (zero_dimension_reaches_division (H:=nearest_kernels) "flat.png" PNone NONE true
              flat_world) as [_ Himage].
  destruct (Himage (Image (0, 10) (λ _ _, (0, 0, 0))) eq_refl) as (Hwidth & _ & _).
  eexists _, _. split; [apply Hwidth; reflexivity|reflexivity].
Defined.

(** C7: a directory that may not be listed is reported as empty although
    it holds a regular file. *)
Lemma unlisted_directory_counts_zero :
  convert_directory (H:=nearest_kernels) "album" (PStr "portrait") FLOYDSTEINBERG false
                    locked_world
  = Return (0, 0)
           (World (fs locked_world)
                  [[Lit "Error: Permission denied to access '"; FVal (PStr "album");
                    Lit "'."];
                   [Lit "Converted "; FInt 0; Lit " from "; FInt 0]])
  ∧ regular_files_inside locked_world "album" = ["a.jpg"]
  ∧ 0 ≠ Z.of_nat (length (regular_files_inside locked_world "album")).
Proof. split; [reflexivity|]. split; [reflexivity|]. vm_compute. discriminate. Qed.

Lemma convert_directory_report_witness :
  ∃ files oks w1 w2,
    list_filenames "album" album_world = Return files w1
    ∧ match fs album_world !! "album" with
      | Some (Dir _ true) => files = regular_files_inside album_world "album" ∧ w1 = album_world
      | _ => files = []
      end
    ∧ 3 = Z.of_nat (length files)
    ∧ pipeline_runs (H:=nearest_kernels) (PStr "portrait") FLOYDSTEINBERG false
                    (map (λ file, "album" +:+ "/" +:+ file) files) w1 oks w2
    ∧ length oks = length files
    ∧ 2 = successes oks
    ∧ 0 ≤ 2 ≤ 3
    ∧ album_world_converted
      = World (fs w2)
              (stdout w2 ++ [[Lit "Converted "; FInt 2; Lit " from "; FInt 3]]).
Proof.
  apply (convert_directory_report (H:=nearest_kernels) "album" (PStr "portrait")
           FLOYDSTEINBERG false album_world 2 3 album_world_converted).
  reflexivity.
Defined.

(** * Further properties of the code *)

(** ** [is_bmp_image] *)

Lemma endswith_iff (s suffix : string) :
  endswith s suffix = true ↔ ∃ r, s = r +:+ suffix.
Proof.
  induction s as [|c s IH].
  - cbn [endswith]. rewrite orb_false_r, String.eqb_eq. split.
    + intros <-. by exists "".
    + intros [r E]. by destruct r.
  - cbn [endswith]. rewrite orb_true_iff, IH, String.eqb_eq. split.
    + intros [<-|[r ->]]; [by exists ""|by exists (String c r)].
    + intros [[|c' r] E]; [left; exact E|right].
      rewrite append_cons in E. injection E as -> ->. by exists r.
Qed.

Lemma str_lower_app (a b : string) : str_lower (a +:+ b) = str_lower a +:+ str_lower b.
Proof.
  induction a as [|c a IH]; [done|].
  rewrite append_cons. cbn [str_lower]. by rewrite append_cons, IH.
Qed.

Lemma str_lower_split (p r t : string) :
  str_lower p = r +:+ t → ∃ root ext, p = root +:+ ext ∧ str_lower root = r ∧ str_lower ext = t.
Proof.
  revert p. induction r as [|c r IH]; intros p E.
  - exists "", p. done.
  - rewrite append_cons in E. destruct p as [|c' p]; [discriminate|].
    cbn [str_lower] in E. injection E as Hc E.
    destruct (IH p E) as (root & ext & -> & <- & <-).
    exists (String c' root), ext. cbn [str_lower]. by rewrite Hc.
Qed.

Lemma ascii_lower_dot (c : ascii) : ascii_lower c = "."%char ↔ c = "."%char.
Proof.
  destruct c as [[] [] [] [] [] [] [] []]; vm_compute; split; congruence.
Qed.

Lemma ascii_lower_b (c : ascii) : ascii_lower c = "b"%char ↔ c = "b"%char ∨ c = "B"%char.
Proof.
  destruct c as [[] [] [] [] [] [] [] []]; vm_compute;
    (split; [try discriminate; auto|intros [|]; congruence]).
Qed.

Lemma ascii_lower_m (c : ascii) : ascii_lower c = "m"%char ↔ c = "m"%char ∨ c = "M"%char.
Proof.
  destruct c as [[] [] [] [] [] [] [] []]; vm_compute;
    (split; [try discriminate; auto|intros [|]; congruence]).
Qed.

Lemma ascii_lower_p (c : ascii) : ascii_lower c = "p"%char ↔ c = "p"%char ∨ c = "P"%char.
Proof.
  destruct c as [[] [] [] [] [] [] [] []]; vm_compute;
    (split; [try discriminate; auto|intros [|]; congruence]).
Qed.

(** X1. [is_bmp_image] accepts exactly the paths whose last four
    characters are a dot, [b] or [B], [m] or [M], and [p] or [P]: the
    extension [.bmp] in any mix of upper and lower case.  Nothing of the
    file is read; what precedes the four characters may be empty and may
    itself contain dots. *)
Theorem is_bmp_image_iff (filepath : string) :
  is_bmp_image filepath = true
  ↔ ∃ root b m p,
      filepath = root +:+ String "." (String b (String m (String p "")))
      ∧ (b = "b"%char ∨ b = "B"%char)
      ∧ (m = "m"%char ∨ m = "M"%char)
      ∧ (p = "p"%char ∨ p = "P"%char).
Proof.
  unfold is_bmp_image. rewrite endswith_iff. split.
  - intros [r E]. destruct (str_lower_split _ _ _ E) as (root & ext & -> & _ & Hext).
    destruct ext as [|c0 [|b [|m [|p [|]]]]]; try discriminate.
    cbn [str_lower] in Hext.
    injection Hext as ->%ascii_lower_dot Hb%ascii_lower_b Hm%ascii_lower_m Hp%ascii_lower_p.
    by exists root, b, m, p.
  - intros (root & b & m & p & -> & Hb%ascii_lower_b & Hm%ascii_lower_m & Hp%ascii_lower_p).
    exists (str_lower root). rewrite str_lower_app. cbn [str_lower].
    by rewrite Hb, Hm, Hp.
Qed.

(** X2. Every name [convert_to_bmp] builds for its output passes
    [is_bmp_image], whatever the input name and the orientation. *)
Theorem output_is_bmp_image (input_filename : string) (display_orientation : pyval) :
  is_bmp_image (output_filename_of input_filename display_orientation) = true.
Proof.
  unfold is_bmp_image, output_filename_of. apply endswith_iff.
  destruct (py_eq_str _ _).
  - exists (str_lower ((os_path_splitext input_filename).1 +:+ ".6b8")).
    by rewrite <- (append_assoc _ ".6b8" ".bmp"), str_lower_app.
  - exists (str_lower ((os_path_splitext input_filename).1 +:+ ".8b6")).
    by rewrite <- (append_assoc _ ".8b6" ".bmp"), str_lower_app.
Qed.

(** ** The output name is never the input name *)

Lemma rfind_from_none (c : ascii) (s : string) (i : Z) :
  0 ≤ i → rfind_from c s i = -1 → ∀ j, String.get j s ≠ Some c.
Proof.
  revert i. induction s as [|a s IH]; intros i Hi Hr j; [by destruct j|].
  cbn [rfind_from] in Hr.
  destruct (rfind_from_bound c s (i + 1) ltac:(lia)) as [Hs|Hs].
  - rewrite Hs in Hr. cbn in Hr.
    destruct (Ascii.eqb a c) eqn:Hac; [lia|].
    destruct j as [|j]; cbn.
    + intros [= ->]. by rewrite Ascii.eqb_refl in Hac.
    + apply (IH (i + 1)); [lia|exact Hs].
  - destruct (0 <=? _) eqn:Hle; [lia|]. apply Z.leb_gt in Hle. lia.
Qed.

Lemma rfind_from_last (c : ascii) (s : string) (i : Z) :
  0 ≤ i → i ≤ rfind_from c s i →
  ∀ j, (Z.to_nat (rfind_from c s i - i) < j)%nat → String.get j s ≠ Some c.
Proof.
  revert i. induction s as [|a s IH]; intros i Hi Hr j Hj; [by destruct j|].
  cbn [rfind_from] in *.
  destruct j as [|j]; [lia|]. cbn [String.get].
  destruct (rfind_from_bound c s (i + 1) ltac:(lia)) as [Hs|Hs].
  - apply (rfind_from_none c s (i + 1)); [lia|exact Hs].
  - destruct (0 <=? _) eqn:Hle; [|apply Z.leb_gt in Hle; lia].
    apply (IH (i + 1)); lia.
Qed.

(** The extension [os.path.splitext] splits off has no dot after its
    first character. *)
Lemma splitext_ext_single_dot (p : string) (j : nat) :
  (0 < j)%nat → String.get j (os_path_splitext p).2 ≠ Some "."%char.
Proof.
  intros Hj. unfold os_path_splitext.
  destruct (_ && _) eqn:Hcond; cbn [snd]; [|by destruct j].
  apply andb_prop in Hcond as [Hlt%Z.ltb_lt _]. unfold rfind in *.
  destruct (rfind_from_bound "/"%char p 0 ltac:(lia)) as [Hsep|Hsep];
    destruct (rfind_from_bound "."%char p 0 ltac:(lia)) as [Hdot|Hdot]; try lia.
  all: destruct (decide (j < String.length p - Z.to_nat (rfind_from "." p 0))%nat) as [Hin|Hout];
    [rewrite String.substring_correct1 by done;
     apply (rfind_from_last "."%char p 0); lia
    |rewrite String.substring_correct2 by lia; done].
Qed.

(** X3. The name [convert_to_bmp] builds for the output is never the
    name of its input, for every path and every orientation: also when
    the input is itself a [.bmp], an output of an earlier run included,
    or has no extension.  This is a fact about the two names: a symbolic
    link under the output name can still lead to the input file. *)
Theorem output_name_differs_from_input_name (input_filename : string)
    (display_orientation : pyval) :
  output_filename_of input_filename display_orientation ≠ input_filename.
Proof.
  unfold output_filename_of. intros E.
  rewrite <- (os_path_splitext_app input_filename) in E at 3.
  pose proof (splitext_ext_single_dot input_filename 4 ltac:(lia)) as Hdot.
  destruct (py_eq_str _ _); apply String.app_inj in E; rewrite <- E in Hdot; by apply Hdot.
Qed.

(** ** What a run of the pipeline does to the world *)

Section PipelineEffects.

Context `{Pillow}.

(** A file that does not pass the validation goes no further. *)
Lemma convert_to_bmp_invalid input_filename display_orientation display_dither verbose w :
  is_regular_file w input_filename = true →
  convert_to_bmp input_filename display_orientation display_dither verbose w
  = match is_valid_image input_filename w with
    | Return true w' =>
        convert_to_bmp input_filename display_orientation display_dither verbose w
    | Return false w' => Return false w'
    | Raise e w' => Raise e w'
    end.
Proof.
  intros Hreg. destruct (is_valid_image input_filename w) as [[] w'|e w'] eqn:Hvalid;
    [done|..]; unfold convert_to_bmp; unfold mbind at 1, M_bind at 1;
    unfold os_path_isfile at 1; rewrite Hreg; cbn [negb];
    unfold mbind at 1, M_bind at 1; by rewrite Hvalid.
Qed.

(** Everything a run of the pipeline can do to the files and to the
    standard output, by the way it ends. *)
Lemma convert_to_bmp_effects input_filename display_orientation display_dither verbose w :
  match convert_to_bmp input_filename display_orientation display_dither verbose w with
  | Return true w' =>
      (∃ out, fs w' = <[output_filename_of input_filename display_orientation :=
                          File (WellFormed out)]> (fs w))
      ∧ if verbose then ∃ line : list frag, stdout w' = (stdout w ++ [line])%list
        else stdout w' = stdout w
  | Return false w' =>
      fs w' = fs w
      ∧ if is_regular_file w input_filename then w' = w
        else stdout w' = (stdout w ++ [[Lit "Error: file "; FVal (PStr input_filename);
                                        Lit " does not exist"]])%list
  | Raise e w' =>
      fs w' = fs w
      ∧ is_regular_file w input_filename = true
      ∧ if verbose
        then stdout w' = stdout w ∨ ∃ line : list frag, stdout w' = (stdout w ++ [line])%list
        else stdout w' = stdout w
  end.
Proof.
  destruct (fs w !! input_filename) as [[d| |]|] eqn:Hfile.
  2-4: unfold convert_to_bmp, os_path_isfile, is_regular_file, print; unfold_monad;
       rewrite Hfile; cbn; done.
  assert (Hreg : is_regular_file w input_filename = true)
    by (unfold is_regular_file; by rewrite Hfile).
  destruct d as [im| | |im|im|e].
  2-4: rewrite (convert_to_bmp_invalid _ _ _ _ _ Hreg), is_valid_image_eq, Hfile, Hreg; done.
  3:{ rewrite (convert_to_bmp_invalid _ _ _ _ _ Hreg), is_valid_image_eq, Hfile.
      destruct (isinstance e _); [by rewrite Hreg|].
      split; [done|]. split; [done|]. by destruct verbose; [left|]. }
  2:{ destruct (convert_to_bmp_truncated_raises input_filename display_orientation
                  display_dither verbose w im Hfile) as (e & w' & -> & Hfs & Hout & _).
      split; [done|]. split; [done|]. destruct verbose; [done|by subst]. }
  rewrite (convert_to_bmp_well_formed _ _ _ _ _ _ Hfile).
  destruct (im_size im) as [width height].
  destruct (target_size display_orientation width height) as [tw th].
  unfold mbind at 1, M_bind at 1.
  assert (Hverbose :
    match (if verbose then print_verbose input_filename width height tw th else mret ()) w with
    | Return _ w1 =>
        fs w1 = fs w
        ∧ if verbose then ∃ line : list frag, stdout w1 = (stdout w ++ [line])%list
          else stdout w1 = stdout w
    | Raise e w1 => w1 = w ∧ verbose = true
    end).
  { destruct verbose; [|done].
    destruct (print_verbose _ _ _ _ _ w) as [[] w1|e w1] eqn:Hp.
    - by apply print_verbose_return in Hp.
    - by apply print_verbose_raise in Hp. }
  match goal with
  | |- context [(if verbose then ?a else ?b) w] =>
      destruct ((if verbose then a else b) w) as [[] w1|e w1]
  end.
  2:{ destruct Hverbose as [-> ->]. split; [done|]. split; [done|by left]. }
  destruct Hverbose as [Hfs Hout].
  assert (Hraise : ∀ e : exn,
            fs w1 = fs w ∧ is_regular_file w input_filename = true
            ∧ if verbose
              then stdout w1 = stdout w
                   ∨ ∃ line : list frag, stdout w1 = (stdout w ++ [line])%list
              else stdout w1 = stdout w).
  { intros _. split; [done|]. split; [done|]. destruct verbose; [by right|done]. }
  unfold mbind at 1, M_bind at 1.
  destruct (scale_ratio tw th width height) as [s|e]; [|by apply Hraise].
  cbn [lift]. unfold mret at 1, M_ret at 1.
  unfold mbind at 1, M_bind at 1.
  destruct (resized_size width height s) as [[rw rh]|e]; [|by apply Hraise].
  cbn [lift]. unfold mret at 1, M_ret at 1.
  unfold mbind at 1, M_bind at 1.
  destruct (Image_resize im (rw, rh)) as [output_image|e]; [|by apply Hraise].
  cbn [lift]. unfold mret at 1, M_ret at 1.
  unfold mbind at 1, M_bind at 1. unfold Image_save.
  destruct (fs w1 !! _) as [[| |]|]; try (by apply (Hraise (Exn IsADirectoryError PNone)));
    unfold mret, M_ret; cbn [fs stdout]; rewrite Hfs; (split; [by eexists|done]).
Qed.

(** X4. A run that does not answer [True] leaves every file as it was:
    when [convert_to_bmp] returns [False] or ends in an exception, no
    file has been created, changed or removed; the only change a run
    ever makes to the files is the one output of a successful run. *)
Theorem failed_conversion_writes_nothing input_filename display_orientation display_dither
    verbose w :
  match convert_to_bmp input_filename display_orientation display_dither verbose w with
  | Return true w' =>
      ∃ out, fs w' = <[output_filename_of input_filename display_orientation :=
                         File (WellFormed out)]> (fs w)
  | Return false w' => fs w' = fs w
  | Raise _ w' => fs w' = fs w
  end.
Proof.
  pose proof (convert_to_bmp_effects input_filename display_orientation display_dither
                verbose w) as Heff.
  destruct (convert_to_bmp _ _ _ _ w) as [[] w'|e w']; tauto.
Qed.

(** X5. One call of [convert_to_bmp] prints at most one line, after
    what was printed before.  A successful run prints one line when
    [verbose] is set and none otherwise; a run that answers [False]
    prints the 'does not exist' line when the path is no regular file and
    nothing when the file is there but is no valid image; a run that ends
    in an exception has printed nothing unless [verbose] is set. *)
Theorem conversion_prints_at_most_one_line input_filename display_orientation display_dither
    verbose w :
  ∃ lines : list (list frag),
    stdout (outcome_world
              (convert_to_bmp input_filename display_orientation display_dither verbose w))
    = (stdout w ++ lines)%list
    ∧ (length lines ≤ 1)%nat
    ∧ match convert_to_bmp input_filename display_orientation display_dither verbose w with
      | Return true _ => length lines = if verbose then 1%nat else 0%nat
      | Return false _ =>
          lines = if is_regular_file w input_filename then []
                  else [[Lit "Error: file "; FVal (PStr input_filename);
                         Lit " does not exist"]]
      | Raise _ _ => verbose = false → lines = []
      end.
Proof.
  pose proof (convert_to_bmp_effects input_filename display_orientation display_dither
                verbose w) as Heff.
  destruct (convert_to_bmp _ _ _ _ w) as [[] w'|e w']; cbn [outcome_world].
  - destruct Heff as [_ Hout]. destruct verbose.
    + destruct Hout as [line ->]. exists [line]. split; [done|]. split; [cbn; lia|done].
    + rewrite Hout. exists []. rewrite app_nil_r. split; [done|]. split; [cbn; lia|done].
  - destruct Heff as [_ Hout]. destruct (is_regular_file w input_filename).
    + subst w'. exists []. rewrite app_nil_r. split; [done|]. split; [cbn; lia|done].
    + rewrite Hout. eexists. split; [reflexivity|]. split; [cbn; lia|done].
  - destruct Heff as (_ & _ & Hout). destruct verbose.
    + destruct Hout as [->|[line ->]].
      * exists []. rewrite app_nil_r. split; [done|]. split; [cbn; lia|done].
      * exists [line]. split; [done|]. split; [cbn; lia|done].
    + rewrite Hout. exists []. rewrite app_nil_r. split; [done|]. split; [cbn; lia|done].
Qed.

(** The [else] arm of the driver: a path that is no directory goes
    through the pipeline once. *)
Lemma batch_driver_single_file (path : string) (o : pyval) (d : Dither) (v : pyval)
    (w : world) :
  os_path_isdir path w = Return false w →
  batch_driver (Parameters (PStr path) o d v) w
  = (ok ← convert_to_bmp path o d (truthy v); mret (if (ok : bool) then 1 else 0)) w.
Proof.
  intros Hdir. unfold batch_driver, as_path, is_directory.
  cbn [filename orientation dither verbose].
  unfold mbind at 1, M_bind at 1. unfold mret at 1, M_ret at 1.
  unfold mbind at 1, M_bind at 1. rewrite Hdir. reflexivity.
Qed.

(** X6. A path that is no regular file (nothing there, or a directory)
    makes [convert_to_bmp] print 'Error: file ... does not exist' and
    answer [False], touching no file; it raises nothing.  Lines 140 to
    149 given a path with nothing behind it take the single-file arm,
    print that line and end with [converted_files] at 0. *)
Theorem missing_input_is_reported input_filename display_orientation display_dither
    verbose w :
  is_regular_file w input_filename = false →
  convert_to_bmp input_filename display_orientation display_dither verbose w
  = Return false
           (World (fs w)
                  (stdout w ++ [[Lit "Error: file "; FVal (PStr input_filename);
                                 Lit " does not exist"]]))
  ∧ (fs w !! input_filename = None →
     batch_driver (Parameters (PStr input_filename) display_orientation display_dither
                              (PBool verbose)) w
     = Return 0
              (World (fs w)
                     (stdout w ++ [[Lit "Error: file "; FVal (PStr input_filename);
                                    Lit " does not exist"]]))).
Proof.
  intros Hreg.
  assert (Hrun : convert_to_bmp input_filename display_orientation display_dither verbose w
                 = Return false
                     (World (fs w)
                            (stdout w ++ [[Lit "Error: file "; FVal (PStr input_filename);
                                           Lit " does not exist"]]))).
  { unfold convert_to_bmp, os_path_isfile, print. unfold_monad. by rewrite Hreg. }
  split; [exact Hrun|].
  intros Hnone. rewrite batch_driver_single_file.
  - cbn [truthy]. unfold mbind, M_bind. by rewrite Hrun.
  - unfold os_path_isdir. by rewrite Hnone.
Qed.

(** X7. What the validation keeps from the pipeline and what it lets
    through.  A regular file that no decoder identifies (zero bytes,
    another format) or whose data [verify()] rejects is skipped without
    a word: [is_valid_image] answers [False], [convert_to_bmp] answers
    [False], nothing is printed and no file changes.  A file whose
    header is sound and whose pixel data stop short in a way [verify()]
    does not see is not skipped: [is_valid_image] answers [True], and
    [convert_to_bmp] ends in an exception without having written a
    file; when the geometry computes and [verbose] is off, the exception
    is the [OSError] that [resize] raises when it loads the data, and
    nothing has been printed. *)
Theorem validation_skips_what_verify_rejects input_filename display_orientation
    display_dither verbose w data :
  fs w !! input_filename = Some (File data) →
  (data = ZeroByte ∨ data = WrongFormat ∨ (∃ im, data = Corrupt im) →
     is_valid_image input_filename w = Return false w
     ∧ convert_to_bmp input_filename display_orientation display_dither verbose w
       = Return false w)
  ∧ (∀ im, data = Truncated im →
       is_valid_image input_filename w = Return true w
       ∧ ∃ e w',
           convert_to_bmp input_filename display_orientation display_dither verbose w
           = Raise e w'
           ∧ fs w' = fs w
           ∧ (∀ s resized,
                scale_ratio
                  (target_size display_orientation (im_size im).1 (im_size im).2).1
                  (target_size display_orientation (im_size im).1 (im_size im).2).2
                  (im_size im).1 (im_size im).2 = Ok s →
                resized_size (im_size im).1 (im_size im).2 s = Ok resized →
                verbose = false →
                e = Exn OSError (PStr "image file is truncated") ∧ w' = w)).
Proof.
  intros Hfile.
  assert (Hreg : is_regular_file w input_filename = true)
    by (unfold is_regular_file; by rewrite Hfile).
  split.
  - intros Hdata.
    assert (Hvalid : is_valid_image input_filename w = Return false w).
    { rewrite is_valid_image_eq, Hfile. by destruct Hdata as [->|[->|[im ->]]]. }
    split; [exact Hvalid|]. by rewrite (convert_to_bmp_invalid _ _ _ _ _ Hreg), Hvalid.
  - intros im ->. split; [by rewrite is_valid_image_eq, Hfile|].
    destruct (convert_to_bmp_truncated_raises input_filename display_orientation
                display_dither verbose w im Hfile) as (e & w' & Hrun & Hfs & Hout & Hexn).
    exists e, w'. split; [done|]. split; [done|].
    intros s resized Hs Hr ->. split; [|done].
    destruct (Hexn s resized Hs Hr) as [->|[? _]]; done.
Qed.

(** X8. [is_valid_image] catches [IOError] and [SyntaxError] and
    nothing else.  When opening the file raises an exception of one of
    these classes (or a subclass, such as [PermissionError]), the file
    counts as invalid and [convert_to_bmp] answers [False]; when it
    raises any other exception, that exception leaves [is_valid_image]
    and [convert_to_bmp] unchanged, with nothing printed or written. *)
Theorem uncaught_open_error_propagates input_filename display_orientation display_dither
    verbose w e :
  fs w !! input_filename = Some (File (Unopenable e)) →
  (isinstance e [IOError; SyntaxError] = true →
     is_valid_image input_filename w = Return false w
     ∧ convert_to_bmp input_filename display_orientation display_dither verbose w
       = Return false w)
  ∧ (isinstance e [IOError; SyntaxError] = false →
       is_valid_image input_filename w = Raise e w
       ∧ convert_to_bmp input_filename display_orientation display_dither verbose w
         = Raise e w).
Proof.
  intros Hfile.
  assert (Hconv : convert_to_bmp input_filename display_orientation display_dither verbose w
                  = match is_valid_image input_filename w with
                    | Return _ w' => Return false w'
                    | Raise e' w' => Raise e' w'
                    end).
  { unfold convert_to_bmp. unfold mbind at 1, M_bind at 1.
    unfold os_path_isfile at 1, is_regular_file. rewrite Hfile. cbn [negb].
    unfold mbind at 1, M_bind at 1. rewrite is_valid_image_eq, Hfile.
    by destruct (isinstance e _). }
  rewrite Hconv, is_valid_image_eq, Hfile.
  split; intros ->; done.
Qed.

End PipelineEffects.

Lemma missing_input_is_reported_witness :
  convert_to_bmp (H:=nearest_kernels) "missing.jpg" PNone FLOYDSTEINBERG false sample_world
  = Return false
           (World (fs sample_world)
                  [[Lit "Error: file "; FVal (PStr "missing.jpg"); Lit " does not exist"]]).
Proof.
  apply (missing_input_is_reported (H:=nearest_kernels) "missing.jpg" PNone FLOYDSTEINBERG
           false sample_world).
  reflexivity.
Defined.

Lemma validation_skips_what_verify_rejects_witness :
  convert_to_bmp (H:=nearest_kernels) "broken.png" PNone FLOYDSTEINBERG true sample_world
  = Return false sample_world
  ∧ is_valid_image "cut.jpg" truncated_world = Return true truncated_world
  ∧ convert_to_bmp (H:=nearest_kernels) "cut.jpg" PNone FLOYDSTEINBERG false truncated_world
    = Raise (Exn OSError (PStr "image file is truncated")) truncated_world.
Proof.
  split.
  - apply (validation_skips_what_verify_rejects (H:=nearest_kernels) "broken.png" PNone
             FLOYDSTEINBERG true sample_world (Corrupt sample_image)).
    + reflexivity.
    + right; right. by exists sample_image.
  - destruct (validation_skips_what_verify_rejects (H:=nearest_kernels) "cut.jpg" PNone
                FLOYDSTEINBERG false truncated_world (Truncated sample_image) eq_refl)
      as [_ Htruncated].
    destruct (Htruncated sample_image eq_refl) as (Hvalid & e & w' & Hrun & _ & Hexn).
    split; [exact Hvalid|].
    destruct (Hexn _ _ eq_refl eq_refl eq_refl) as [He Hw].
    rewrite Hrun, He, Hw. reflexivity.
Defined.

Lemma uncaught_open_error_propagates_witness :
  convert_to_bmp (H:=nearest_kernels) "huge.png" PNone FLOYDSTEINBERG false bomb_world
  = Raise (Exn DecompressionBombError (PStr "Image size exceeds limit")) bomb_world.
Proof.
  apply (uncaught_open_error_propagates (H:=nearest_kernels) "huge.png" PNone FLOYDSTEINBERG
           false bomb_world (Exn DecompressionBombError (PStr "Image size exceeds limit"))).
  - reflexivity.
  - reflexivity.
Defined.

(** ** The canvas after the paste *)

(** X9. What the centred paste leaves of the white canvas.  When the
    resized image covers the canvas on both axes, every pixel of the
    canvas is a pixel of the resized image (at coordinates inside it) and
    no white remains.  When the resized image is narrower than the
    canvas, as the float arithmetic of the scale can make it by one
    pixel, the last column of the canvas stays white; when it is
    shorter, the last row stays white. *)
Theorem paste_covers_canvas_or_leaves_white (output_image : image)
    (target_width target_height x y : Z) :
  let resized_width := (im_size output_image).1 in
  let resized_height := (im_size output_image).2 in
  let box := paste_offset target_width target_height resized_width resized_height in
  let pasted := Image_paste (Image_new_RGB (target_width, target_height) (255, 255, 255))
                            output_image box in
  0 ≤ x < target_width → 0 ≤ y < target_height →
  (target_width ≤ resized_width → target_height ≤ resized_height →
     im_pixel pasted x y = im_pixel output_image (x - box.1) (y - box.2)
     ∧ 0 ≤ x - box.1 < resized_width ∧ 0 ≤ y - box.2 < resized_height)
  ∧ (0 ≤ resized_width < target_width →
       im_pixel pasted (target_width - 1) y = (255, 255, 255))
  ∧ (0 ≤ resized_height < target_height →
       im_pixel pasted x (target_height - 1) = (255, 255, 255)).
Proof.
  intros rw rh box pasted Hx Hy. subst pasted box.
  unfold Image_paste, paste_offset, Image_new_RGB. cbn [im_pixel im_size fst snd].
  fold rw rh.
  pose proof (Z.div_mod (target_width - rw) 2 ltac:(lia)).
  pose proof (Z.mod_pos_bound (target_width - rw) 2 ltac:(lia)).
  pose proof (Z.div_mod (target_height - rh) 2 ltac:(lia)).
  pose proof (Z.mod_pos_bound (target_height - rh) 2 ltac:(lia)).
  split; [|split].
  - intros Hw Hh.
    assert (Hin : ((target_width - rw) `div` 2 <=? x)
                  && (x <? (target_width - rw) `div` 2 + rw)
                  && ((target_height - rh) `div` 2 <=? y)
                  && (y <? (target_height - rh) `div` 2 + rh) = true).
    { repeat (apply andb_true_intro; split); lia. }
    rewrite Hin. split; [reflexivity|lia].
  - intros Hw.
    assert (Hout : (target_width - 1 <? (target_width - rw) `div` 2 + rw) = false) by lia.
    rewrite Hout, andb_false_r. reflexivity.
  - intros Hh.
    assert (Hout : (target_height - 1 <? (target_height - rh) `div` 2 + rh) = false) by lia.
    rewrite Hout, andb_false_r. reflexivity.
Qed.

Lemma paste_covers_canvas_or_leaves_white_witness :
  im_pixel (Image_paste (Image_new_RGB (800, 480) (255, 255, 255)) narrow_image
                        (paste_offset 800 480 799 600))
           799 10
  = (255, 255, 255).
Proof.
  destruct (paste_covers_canvas_or_leaves_white narrow_image 800 480 0 10)
    as (_ & Hcolumn & _); [lia|lia|].
  apply Hcolumn. cbn. lia.
Defined.

(** ** [list_filenames] and the batch driver *)

Lemma filter_sublist {A} (P : A → bool) (l : list A) : sublist (List.filter P l) l.
Proof.
  induction l as [|x l IH]; [constructor|].
  cbn. destruct (P x); by constructor.
Qed.

(** X10. [list_filenames] changes no file.  What it returns is a
    selection of the directory's entries in their order, each of them a
    regular file under the joined path.  When [os.listdir] returns, the
    function prints nothing; when [os.listdir] raises
    [FileNotFoundError] or [PermissionError], it prints one line and
    returns the empty list.  An exception of any other class that
    [os.listdir] raises ([NotADirectoryError] for a regular file, a plain
    [OSError] for a name that is too long, [ValueError] for a NUL byte)
    leaves the function as it is, with nothing printed. *)
Theorem list_filenames_contract (directory : string) (w : world) :
  match list_filenames directory w with
  | Return files w' =>
      fs w' = fs w
      ∧ sublist files (directory_entries w directory)
      ∧ Forall (λ f, is_regular_file w (os_path_join directory f) = true) files
      ∧ match os_listdir directory w with
        | Return _ _ => w' = w
        | Raise e _ =>
            isinstance e [FileNotFoundError; PermissionError] = true
            ∧ files = [] ∧ ∃ line : list frag, stdout w' = (stdout w ++ [line])%list
        end
  | Raise e w' =>
      w' = w
      ∧ os_listdir directory w = Raise e w
      ∧ isinstance e [FileNotFoundError; PermissionError] = false
  end.
Proof.
  rewrite list_filenames_eq. unfold directory_entries, is_regular_file, os_listdir.
  destruct (fs w !! directory) as [[d|entries []|[]]|]; cbn [fs stdout]; try done.
  - split; [done|]. split; [apply filter_sublist|]. split; [|done].
    apply Forall_forall. intros f Hf%list_elem_of_In%filter_In. apply Hf.
  - split; [done|]. split; [apply sublist_nil_l|]. split; [constructor|].
    split; [done|]. split; [done|]. eexists. reflexivity.
  - split; [done|]. split; [constructor|]. split; [constructor|].
    split; [done|]. split; [done|]. eexists. reflexivity.
  - split; [done|]. split; [constructor|]. split; [constructor|].
    split; [done|]. split; [done|]. eexists. reflexivity.
Qed.

Section BatchEffects.

Context `{Pillow}.

(** X11. The filter of [list_filenames] tests [os.path.join(directory,
    f)], the loop of the driver converts [filename + '/' + f].  For a
    directory name that is not empty and does not end in a slash, and
    entries that do not start with one, the two paths are the same:
    every path the loop hands to [convert_to_bmp] is a regular file when
    the loop starts. *)
Theorem batch_paths_are_regular_files (filename : string) (w : world)
    (entries : list string) :
  fs w !! filename = Some (Dir entries true) →
  filename ≠ "" → endswith_slash filename = false →
  Forall (λ f, startswith_slash f = false) entries →
  ∃ files,
    list_filenames filename w = Return files w
    ∧ Forall (λ file, is_regular_file w (filename +:+ "/" +:+ file) = true) files.
Proof.
  intros Hdir Hne Hslash Hentries. rewrite list_filenames_eq, Hdir.
  eexists. split; [reflexivity|].
  apply Forall_forall. intros f [Hf Hreg]%list_elem_of_In%filter_In.
  rewrite Forall_forall in Hentries. apply list_elem_of_In in Hf.
  unfold os_path_join in Hreg. rewrite (Hentries f Hf), Hslash, orb_false_r in Hreg.
  destruct (String.eqb filename "") eqn:E; [by apply String.eqb_eq in E|done].
Qed.

Lemma sublist_map {A B} (f : A → B) (l1 l2 : list A) :
  sublist l1 l2 → sublist (map f l1) (map f l2).
Proof. induction 1; cbn [map]; by constructor. Qed.

(** What a sequence of runs leaves in the file system: one save for
    every run that answered [True], under the output name of its path,
    in the order of the runs. *)
Lemma pipeline_runs_saves orientation dither verbose paths w oks w' :
  pipeline_runs orientation dither verbose paths w oks w' →
  ∃ saved : list (string * image),
    Z.of_nat (length saved) = successes oks
    ∧ fs w' = foldl (λ m s, <[s.1 := File (WellFormed s.2)]> m) (fs w) saved
    ∧ sublist (map fst saved) (map (λ path, output_filename_of path orientation) paths).
Proof.
  induction 1 as [|path paths w ok w1 oks w2 Hrun Hruns (saved & Hlen & Hfs & Hsub)].
  { exists []. split; [done|]. split; [done|]. constructor. }
  pose proof (convert_to_bmp_effects path orientation dither verbose w) as Heff.
  rewrite Hrun in Heff. rewrite successes_cons. destruct ok.
  - destruct Heff as [[out Hout] _].
    exists ((output_filename_of path orientation, out) :: saved).
    split; [cbn [length]; lia|]. split.
    + cbn [foldl fst snd]. by rewrite <- Hout.
    + cbn [map fst]. by constructor.
  - destruct Heff as [Hsame _]. exists saved.
    split; [lia|]. split; [by rewrite <- Hsame|]. cbn [map]. by constructor.
Qed.

Lemma convert_files_raise filename orientation dither verbose before file after
    converted_files w oks w1 e w2 :
  pipeline_runs orientation dither verbose
                (map (λ file, filename +:+ "/" +:+ file) before) w oks w1 →
  convert_to_bmp (filename +:+ "/" +:+ file) orientation dither verbose w1 = Raise e w2 →
  convert_files filename orientation dither verbose (before ++ file :: after)
                converted_files w
  = Raise e w2.
Proof.
  revert converted_files w oks.
  induction before as [|f before IH]; intros acc w oks Hruns Hraise.
  - inversion Hruns; subst. cbn [app convert_files]. unfold mbind, M_bind. by rewrite Hraise.
  - cbn [map] in Hruns. inversion Hruns as [|? ? ? ok w' oks' ? Hrun Hrest]; subst.
    cbn [app convert_files]. unfold mbind at 1, M_bind at 1. rewrite Hrun.
    by eapply IH.
Qed.

(** The [if] arm of the driver: a directory goes through the loop. *)
Lemma batch_driver_directory (path : string) (o : pyval) (d : Dither) (v : pyval)
    (w : world) :
  os_path_isdir path w = Return true w →
  batch_driver (Parameters (PStr path) o d v) w
  = ('(converted_files, _) ← convert_directory path o d (truthy v);
     mret converted_files) w.
Proof.
  intros Hdir. unfold batch_driver, as_path, is_directory.
  cbn [filename orientation dither verbose].
  unfold mbind at 1, M_bind at 1. unfold mret at 1, M_ret at 1.
  unfold mbind at 1, M_bind at 1. rewrite Hdir. reflexivity.
Qed.

(** X13. The loop of the driver has no [try]: when the pipeline raises
    on one file of the directory, the files before it have been
    converted, the exception leaves the driver, the files after it are
    never looked at and the summary line is not printed. *)
Theorem batch_stops_at_first_exception filename orientation dither verbose w before file
    after w0 oks w1 e w2 :
  list_filenames filename w = Return (before ++ file :: after)%list w0 →
  pipeline_runs orientation dither verbose
                (map (λ file, filename +:+ "/" +:+ file) before) w0 oks w1 →
  convert_to_bmp (filename +:+ "/" +:+ file) orientation dither verbose w1 = Raise e w2 →
  convert_directory filename orientation dither verbose w = Raise e w2
  ∧ fs w2 = fs w1
  ∧ batch_driver (Parameters (PStr filename) orientation dither (PBool verbose)) w
    = Raise e w2.
Proof.
  intros Hlist Hruns Hraise.
  assert (Hdir : convert_directory filename orientation dither verbose w = Raise e w2).
  { unfold convert_directory.
    unfold mbind at 1, M_bind at 1. rewrite Hlist.
    unfold mbind at 1, M_bind at 1.
    by rewrite (convert_files_raise _ _ _ _ _ _ _ _ _ _ _ _ _ Hruns Hraise). }
  split; [exact Hdir|]. split.
  { pose proof (convert_to_bmp_effects (filename +:+ "/" +:+ file) orientation dither
                  verbose w1) as Heff.
    rewrite Hraise in Heff. tauto. }
  assert (Hisdir : os_path_isdir filename w = Return true w).
  { rewrite list_filenames_eq in Hlist. unfold os_path_isdir.
    destruct (fs w !! filename) as [[|entries []|[]]|]; try done;
      injection Hlist as Hnil _; by destruct before. }
  rewrite batch_driver_directory by done.
  cbn [truthy]. unfold mbind, M_bind. by rewrite Hdir.
Qed.

(** X14. A directory that can be listed and holds no regular file
    (it is empty, or holds only subdirectories and names with nothing
    behind them) is reported as 'Converted 0 from 0'; nothing else is
    printed and no file changes. *)
Theorem directory_without_files_reports_zero filename orientation dither verbose w entries :
  fs w !! filename = Some (Dir entries true) →
  regular_files_inside w filename = [] →
  convert_directory filename orientation dither verbose w
  = Return (0, 0)
           (World (fs w)
                  (stdout w ++ [[Lit "Converted "; FInt 0; Lit " from "; FInt 0]])).
Proof.
  intros Hdir Hnone. unfold convert_directory.
  unfold mbind at 1, M_bind at 1. rewrite list_filenames_eq, Hdir.
  unfold regular_files_inside in Hnone. rewrite Hdir in Hnone. rewrite Hnone.
  reflexivity.
Qed.

(** X15. A batch run that reaches its summary line has performed one
    save for every file it counts as converted and has done nothing else
    to the files: the file system afterwards is the one before with
    [converted] images saved, each under the output name of a regular
    file of the directory, in the order of the listing.  A run that
    reports no conversion has left every file as it was. *)
Theorem batch_saves_one_output_per_success filename orientation dither verbose w converted
    total w' :
  convert_directory filename orientation dither verbose w = Return (converted, total) w' →
  (∃ saved : list (string * image),
     Z.of_nat (length saved) = converted
     ∧ fs w' = foldl (λ m s, <[s.1 := File (WellFormed s.2)]> m) (fs w) saved
     ∧ sublist (map fst saved)
               (map (λ file, output_filename_of (filename +:+ "/" +:+ file) orientation)
                    (regular_files_inside w filename)))
  ∧ (converted = 0 → fs w' = fs w).
Proof.
  unfold convert_directory. unfold mbind at 1, M_bind at 1.
  pose proof (list_filenames_eq filename w) as Hlist.
  destruct (list_filenames filename w) as [files w1|e w1]; [|discriminate].
  unfold mbind at 1, M_bind at 1.
  destruct (convert_files _ _ _ _ files 0 w1) as [n w2|e w2] eqn:Hruns; [|discriminate].
  apply convert_files_runs in Hruns as (oks & Hruns & -> & _).
  unfold print. unfold_monad. intros [= <- _ <-]. cbn [fs].
  assert (Hfiles : fs w1 = fs w ∧ sublist files (regular_files_inside w filename)).
  { unfold regular_files_inside.
    destruct (fs w !! filename) as [[|entries []|[]]|]; try discriminate;
      injection Hlist as ? ?; subst; (split; [done|]);
      first [reflexivity|apply sublist_nil_l]. }
  destruct Hfiles as [Hfs Hfiles].
  destruct (pipeline_runs_saves _ _ _ _ _ _ _ Hruns) as (saved & Hlen & Hsaved & Hsub).
  rewrite map_map in Hsub. rewrite Hfs in Hsaved.
  assert (Hall : ∃ saved : list (string * image),
            Z.of_nat (length saved) = successes oks
            ∧ fs w2 = foldl (λ m s, <[s.1 := File (WellFormed s.2)]> m) (fs w) saved
            ∧ sublist (map fst saved)
                (map (λ file, output_filename_of (filename +:+ "/" +:+ file) orientation)
                     (regular_files_inside w filename))).
  { exists saved. split; [done|]. split; [done|].
    etrans; [exact Hsub|]. by apply sublist_map. }
  split; [exact Hall|].
  intros Hzero. destruct saved; [by rewrite Hsaved|cbn [length] in Hlen; lia].
Qed.

End BatchEffects.

Lemma batch_paths_are_regular_files_witness :
  ∃ files,
    list_filenames "album" album_world = Return files album_world
    ∧ Forall (λ file, is_regular_file album_world ("album" +:+ "/" +:+ file) = true) files.
Proof.
  apply (batch_paths_are_regular_files "album" album_world
           ["a.jpg"; "notes.txt"; "b.jpg"; "old"]).
  - reflexivity.
  - discriminate.
  - reflexivity.
  - repeat constructor.
Defined.

Lemma batch_stops_at_first_exception_witness :
  convert_directory (H:=nearest_kernels) "album" (PStr "portrait") FLOYDSTEINBERG false
                    mixed_album_world
  = Raise (Exn ZeroDivisionError (PStr "division by zero")) mixed_album_world.
Proof.
  apply (batch_stops_at_first_exception (H:=nearest_kernels) "album" (PStr "portrait")
           FLOYDSTEINBERG false mixed_album_world ["notes.txt"] "flat.png" ["b.jpg"]
           mixed_album_world [false] mixed_album_world
           (Exn ZeroDivisionError (PStr "division by zero")) mixed_album_world).
  - reflexivity.
  - apply (runs_cons _ _ _ _ _ _ false mixed_album_world); [reflexivity|apply runs_nil].
  - reflexivity.
Defined.

Lemma directory_without_files_reports_zero_witness :
  convert_directory (H:=nearest_kernels) "album" (PStr "portrait") FLOYDSTEINBERG false
                    folders_world
  = Return (0, 0)
           (World (fs folders_world) [[Lit "Converted "; FInt 0; Lit " from "; FInt 0]]).
Proof.
  apply (directory_without_files_reports_zero (H:=nearest_kernels) "album" (PStr "portrait")
           FLOYDSTEINBERG false folders_world ["old"; "gone.jpg"]).
  - reflexivity.
  - reflexivity.
Defined.

Lemma batch_saves_one_output_per_success_witness :
  ∃ saved : list (string * image),
    Z.of_nat (length saved) = 2
    ∧ fs album_world_converted
      = foldl (λ m s, <[s.1 := File (WellFormed s.2)]> m) (fs album_world) saved.
Proof.
  destruct (batch_saves_one_output_per_success (H:=nearest_kernels) "album" (PStr "portrait")
              FLOYDSTEINBERG false album_world 2 3 album_world_converted)
    as [(saved & Hlen & Hfs & _) _]; [reflexivity|].
  exists saved. split; [exact Hlen|exact Hfs].
Defined.

(** ** The namespace the parser returns *)

Section Namespace.

Import Argparse.

Ltac parser_cases Ha :=
  unfold parser, image_file_argument, orient_argument, dither_argument,
    verbose_argument in Ha;
  repeat (apply elem_of_cons in Ha as [->|Ha]); [..|by apply elem_of_nil in Ha].

Lemma store_shape (a : action) (v : pyval) (ns : gmap string pyval) :
  a ∈ parser → value_shape a v → namespace_shape ns → namespace_shape (<[dest a := v]> ns).
Proof.
  intros Ha (Himage & Horient & Hdither & Hverbose) (Hdom & Hi & Ho & Hd & Hv).
  parser_cases Ha; cbn [dest] in *; (split; [rewrite dom_insert_L, Hdom; set_solver|]).
  all: rewrite ?lookup_insert_eq, ?lookup_insert_ne by done.
  - destruct (Himage eq_refl) as [s ->]. repeat split; eauto.
  - destruct (Horient eq_refl) as [->| ->]; repeat split; eauto.
  - destruct (Hdither eq_refl) as [->| ->]; repeat split; eauto.
  - destruct (Hverbose eq_refl) as [b ->]. repeat split; eauto.
Qed.

Lemma get_value_shape (a : action) (s : string) (w : world) (v : pyval) (w' : world) :
  a ∈ parser → get_value a s w = Return v w' → w' = w ∧ value_shape a v.
Proof.
  intros Ha. parser_cases Ha; unfold get_value, value_shape; cbn [type_ choices dest];
    unfold_monad.
  - intros [= <- <-]. unfold type_str. repeat split; try done. eauto.
  - unfold type_str. cbn [existsb py_eq].
    destruct (String.eqb s "landscape") eqn:E1; [apply String.eqb_eq in E1 as ->|].
    { intros [= <- <-]. repeat split; try done. auto. }
    destruct (String.eqb s "portrait") eqn:E2; [apply String.eqb_eq in E2 as ->|].
    { intros [= <- <-]. repeat split; try done. auto. }
    discriminate.
  - unfold type_int. destruct (py_int s) as [z|]; [|discriminate].
    cbn [existsb py_eq Dither_value].
    destruct (z =? 0) eqn:E0; [apply Z.eqb_eq in E0 as ->|].
    { intros [= <- <-]. repeat split; try done. auto. }
    destruct (z =? 3) eqn:E3; [apply Z.eqb_eq in E3 as ->|].
    { intros [= <- <-]. repeat split; try done. auto. }
    discriminate.
  - intros [= <- <-]. unfold type_bool. repeat split; try done. eauto.
Qed.

Lemma const_value_shape (a : action) (w : world) (v : pyval) (w' : world) :
  a ∈ parser → dest a ≠ "image_file" → const_value a w = Return v w' →
  w' = w ∧ value_shape a v.
Proof.
  intros Ha Hne. unfold const_value.
  destruct (const a) eqn:Hc; try (unfold_monad; intros [= <- <-]; split; [done|]).
  4: by apply get_value_shape.
  all: parser_cases Ha; unfold value_shape; cbn in *; try discriminate; try done;
    simplify_eq; repeat split; try done; eauto.
Qed.

Lemma find_action_option (o : string) (a : action) :
  find_action parser o = Some a → a ∈ parser ∧ dest a ≠ "image_file".
Proof.
  intros Hfind. pose proof (find_action_elem _ _ _ Hfind) as Ha. split; [done|].
  apply find_some in Hfind as [_ Ho%bool_decide_eq_true].
  parser_cases Ha; cbn in *; try done. by apply elem_of_nil in Ho.
Qed.

Lemma store_state_shape (a : action) (v : pyval) (st : state) :
  a ∈ parser → dest a ≠ "image_file" → value_shape a v → state_shape st →
  state_shape (store a v st).
Proof.
  intros Ha Hne Hv [Hns Hpos]. split; cbn; [by apply store_shape|].
  destruct Hpos as [Hp|[Hp [s Hs]]]; [by left|right].
  split; [done|]. exists s. by rewrite lookup_insert_ne.
Qed.

Lemma consume_shape (n : nat) :
  ∀ tokens st w, (length tokens ≤ n)%nat → state_shape st →
    match consume parser tokens st w with
    | Return st' w' => w' = w ∧ state_shape st'
    | Raise e _ => exn_class e = SystemExit
    end.
Proof.
  induction n as [|n IH]; intros tokens st w Hlen Hst.
  { destruct tokens; [|cbn in Hlen; lia]. cbn. done. }
  destruct tokens as [|t rest]; [done|]. cbn [length] in Hlen.
  destruct t as [s| |o x|s]; cbn [consume].
  - destruct Hst as [Hns Hpos].
    destruct Hpos as [Hp|[Hp Hs]]; rewrite Hp.
    + unfold mbind at 1, M_bind at 1.
      assert (Hin : image_file_argument ∈ parser) by (unfold parser; set_solver).
      destruct (get_value image_file_argument s w) as [v w1|e w1] eqn:Hv.
      * apply get_value_shape in Hv as [-> Hv]; [|done].
        apply IH; [pose proof (after_positional_length rest); lia|].
        split; cbn; [by apply (store_shape image_file_argument)|].
        right. split; [done|]. destruct Hv as [Hi _]. destruct (Hi eq_refl) as [f ->].
        exists f. apply lookup_insert_eq.
      * by apply get_value_raise in Hv.
    + apply IH; [lia|]. split; cbn; [done|]. by right.
  - destruct Hst as [Hns Hpos].
    destruct (positionals st) as [|a positionals'] eqn:Hp;
      [|destruct rest as [|[s| |o x|s] rest'] eqn:Hrest];
      (apply IH; [cbn [length] in *; lia|]); split; cbn; try done; by rewrite Hp.
  - destruct (find_action parser o) as [a|] eqn:Hfind.
    2:{ destruct (take_help_raise (A:=state) o x w) as (e & w' & -> & He). done. }
    apply find_action_option in Hfind as [Ha Hne].
    destruct x as [e|].
    + unfold mbind at 1, M_bind at 1.
      destruct (String.eqb e "--" && optional_value a).
      * destruct (const_value a w) as [v w1|e' w1] eqn:Hv.
        -- apply const_value_shape in Hv as [-> Hv]; [|done|done].
           apply IH; [lia|]. by apply store_state_shape.
        -- by apply const_value_raise in Hv.
      * destruct (get_value a e w) as [v w1|e' w1] eqn:Hv.
        -- apply get_value_shape in Hv as [-> Hv]; [|done].
           apply IH; [lia|]. by apply store_state_shape.
        -- by apply get_value_raise in Hv.
    + assert (Hconst :
        match (if optional_value a
               then v ← const_value a; consume parser rest (store a v st)
               else error) w with
        | Return st' w' => w' = w ∧ state_shape st'
        | Raise e _ => exn_class e = SystemExit
        end).
      { destruct (optional_value a); [|done].
        unfold mbind at 1, M_bind at 1.
        destruct (const_value a w) as [v w1|e' w1] eqn:Hv.
        - apply const_value_shape in Hv as [-> Hv]; [|done|done].
          apply IH; [lia|]. by apply store_state_shape.
        - by apply const_value_raise in Hv. }
      destruct rest as [|[s| |o' x'|s] rest']; try exact Hconst.
      unfold mbind at 1, M_bind at 1.
      destruct (get_value a s w) as [v w1|e' w1] eqn:Hv.
      * apply get_value_shape in Hv as [-> Hv]; [|done].
        apply IH; [cbn [length] in Hlen; lia|]. by apply store_state_shape.
      * by apply get_value_raise in Hv.
  - apply IH; [lia|]. destruct Hst as [Hns Hpos]. split; cbn; done.
Qed.

Lemma convert_defaults_shape (actions : list action) (seen : list string)
    (ns : gmap string pyval) (w : world) :
  Forall (λ a, a ∈ parser) actions → namespace_shape ns →
  match convert_defaults actions seen ns w with
  | Return ns' w' =>
      w' = w ∧ namespace_shape ns' ∧ ns' !! "image_file" = ns !! "image_file"
  | Raise e _ => exn_class e = SystemExit
  end.
Proof.
  intros Hall. revert ns. induction Hall as [|a actions Ha Hall IH]; intros ns Hns; [done|].
  cbn [convert_defaults].
  destruct (default a) as [| | |d] eqn:Hd; try by apply IH.
  case_bool_decide; [by apply IH|].
  destruct (type_ a d) as [v|e] eqn:Hv; [|done].
  assert (Hdest : dest a = "orient" ∧ v = PStr "portrait").
  { parser_cases Ha; cbn in *; try discriminate. injection Hd as <-. by injection Hv as <-. }
  destruct Hdest as [Hdest ->].
  assert (Hshape : namespace_shape (<[dest a := PStr "portrait"]> ns)).
  { apply store_shape; [done| |done]. unfold value_shape. rewrite Hdest.
    repeat split; try done. auto. }
  specialize (IH _ Hshape).
  destruct (convert_defaults actions seen _ w); [|done].
  destruct IH as (-> & ? & ->). rewrite Hdest. by rewrite lookup_insert_ne.
Qed.

(** X16. Every namespace [parse_args] returns has the four attributes
    [image_file], [orient], [dither] and [verbose] and no other;
    [image_file] is a string, so it is a path the driver can test;
    [dither] is 0 or 3, so [Image.Dither(args.dither)] of line 134 never
    raises [ValueError]; [verbose] is a boolean.  Parsing prints
    nothing. *)
Theorem parsed_namespace_shape (argv : list string) (w : world)
    (args : gmap string pyval) (w' : world) :
  parse_args parser argv w = Return args w' →
  w' = w
  ∧ dom args = ({["image_file"; "orient"; "dither"; "verbose"]} : gset string)
  ∧ (∃ image_file, args !! "image_file" = Some (PStr image_file))
  ∧ (∃ d, args !! "dither" = Some (PInt (Dither_value d))
          ∧ (d = NONE ∨ d = FLOYDSTEINBERG)
          ∧ Image_Dither (PInt (Dither_value d)) = Ok d)
  ∧ (∃ b, args !! "verbose" = Some (PBool b)).
Proof.
  unfold parse_args.
  destruct (classify _ argv) as [tokens|]; [|discriminate].
  unfold mbind at 1, M_bind at 1.
  match goal with
  | |- context [consume parser tokens ?st w] =>
      pose proof (consume_shape (length tokens) tokens st w (Nat.le_refl _)) as Hc;
      destruct (consume parser tokens st w) as [st' w1|e w1]; [|discriminate]
  end.
  destruct Hc as [-> [Hns Hpos]].
  { split; [|by left]. split; [reflexivity|]. split; [by left|].
    split; [by right|]. split; [by right|]. by exists false. }
  unfold mbind at 1, M_bind at 1.
  pose proof (convert_defaults_shape parser (seen st') (namespace st') w) as Hd.
  destruct (convert_defaults parser (seen st') (namespace st') w) as [ns w2|e w2];
    [|discriminate].
  destruct Hd as (-> & (Hdom & _ & _ & Hdither & Hverbose) & Himage);
    [unfold parser; repeat constructor; set_solver|done|].
  destruct Hpos as [Hp|[Hp [f Hf]]]; rewrite Hp; [discriminate|].
  destruct (extras st'); [|discriminate].
  unfold_monad. intros [= <- <-].
  split; [done|]. split; [done|]. split; [exists f; congruence|]. split; [|done].
  destruct Hdither as [Hd|Hd]; [exists NONE|exists FLOYDSTEINBERG]; auto.
Qed.

Lemma parsed_namespace_shape_witness :
  dom sample_namespace = ({["image_file"; "orient"; "dither"; "verbose"]} : gset string)
  ∧ ∃ d, sample_namespace !! "dither" = Some (PInt (Dither_value d))
         ∧ Image_Dither (PInt (Dither_value d)) = Ok d.
Proof.
  destruct (parsed_namespace_shape ["photo.jpg"] sample_world sample_namespace sample_world)
    as (_ & Hdom & _ & (d & Hd & _ & Hvalid) & _).
  - vm_compute. reflexivity.
  - split; [exact Hdom|]. exists d. split; [exact Hd|exact Hvalid].
Defined.

Lemma parse_optional_plain (known : list string) (s : string) :
  plain_word s = true → parse_optional known s = Some (TPositional s).
Proof. destruct s as [|c s]; [done|]. cbn. by intros ->. Qed.

Lemma plain_word_not_terminator (s : string) :
  plain_word s = true → String.eqb s "--" = false.
Proof.
  destruct s as [|c s]; [done|]. cbn [plain_word]. intros Hc.
  destruct (String.eqb (String c s) "--") eqn:E; [|done].
  apply String.eqb_eq in E. injection E as -> _. done.
Qed.

Lemma classify_file_option (known : list string) (image_file : string)
    (rest : list string) :
  plain_word image_file = true →
  classify known (image_file :: rest)
  = ts ← classify known rest; Some (TPositional image_file :: ts).
Proof.
  intros Hplain. cbn [classify].
  by rewrite (plain_word_not_terminator _ Hplain), (parse_optional_plain _ _ Hplain).
Qed.

Lemma classify_option_file (known : list string) (option image_file : string) :
  plain_word image_file = true →
  String.eqb option "--" = false →
  parse_optional known option = Some (TOption option None) →
  classify known [option; image_file]
  = Some [TOption option None; TPositional image_file].
Proof.
  intros Hfile Hoption Hparse. cbn [classify].
  rewrite Hoption, Hparse, (plain_word_not_terminator _ Hfile),
    (parse_optional_plain _ _ Hfile).
  reflexivity.
Qed.

(** X17. [--verbose] is declared with [type=bool], [nargs='?'] and
    [const=False]: the flag alone leaves [verbose] at [False], and the
    flag followed by a word sets [verbose] to the truth value of that
    word as a string, which is [True] for every word that is not empty,
    'False' and '0' included.  In both cases the other attributes keep
    their defaults and nothing is printed. *)
Theorem verbose_flag_needs_a_value (image_file value : string) (w : world) :
  plain_word image_file = true → plain_word value = true →
  parse_args parser [image_file; "--verbose"] w = Return (namespace_of image_file false) w
  ∧ parse_args parser [image_file; "--verbose"; value] w
    = Return (namespace_of image_file (negb (String.eqb value ""))) w.
Proof.
  intros Hfile Hvalue. split.
  - unfold parse_args. rewrite classify_file_option by done.
    reflexivity.
  - unfold parse_args. rewrite classify_file_option by done.
    cbn [classify]. rewrite (plain_word_not_terminator _ Hvalue).
    rewrite (parse_optional_plain _ _ Hvalue).
    reflexivity.
Qed.

Lemma verbose_flag_needs_a_value_witness :
  parse_args parser ["photo.jpg"; "--verbose"] sample_world
  = Return (namespace_of "photo.jpg" false) sample_world
  ∧ parse_args parser ["photo.jpg"; "--verbose"; "False"] sample_world
    = Return (namespace_of "photo.jpg" true) sample_world.
Proof.
  apply (verbose_flag_needs_a_value "photo.jpg" "False" sample_world); reflexivity.
Defined.

(** X18. Each of the three options takes an optional value
    ([nargs='?']), so an option written directly before the image file
    takes the file name as its value: the positional is then missing (or
    the name is refused as a value) and the parser ends the run with
    exit status 2.  The image file has to come before a bare option. *)
Theorem option_takes_following_file (option image_file : string) (w : world) :
  option ∈ ["--orient"; "--dither"; "--verbose"] →
  plain_word image_file = true →
  parse_args parser [option; image_file] w = Raise (Exn SystemExit (PInt 2)) w.
Proof.
  intros Hoption Hfile.
  repeat (apply elem_of_cons in Hoption as [->|Hoption]); [..|by apply elem_of_nil in Hoption].
  - unfold parse_args. cbv zeta.
    rewrite (classify_option_file _ "--orient" image_file Hfile) by reflexivity.
    unfold mbind at 1, M_bind at 1. cbn [consume].
    change (find_action parser "--orient") with (Some orient_argument). cbv iota.
    unfold mbind at 1, M_bind at 1.
    unfold get_value at 1. cbn [type_ choices orient_argument type_str existsb py_eq].
    destruct (String.eqb image_file "landscape"); [reflexivity|].
    destruct (String.eqb image_file "portrait"); reflexivity.
  - unfold parse_args. cbv zeta.
    rewrite (classify_option_file _ "--dither" image_file Hfile) by reflexivity.
    unfold mbind at 1, M_bind at 1. cbn [consume].
    change (find_action parser "--dither") with (Some dither_argument). cbv iota.
    unfold mbind at 1, M_bind at 1.
    unfold get_value at 1. cbn [type_ choices dither_argument].
    destruct (type_int image_file) as [v|e] eqn:E; [|reflexivity].
    destruct (existsb (py_eq v) _) eqn:Hin; [|reflexivity].
    reflexivity.
  - unfold parse_args. cbv zeta.
    rewrite (classify_option_file _ "--verbose" image_file Hfile) by reflexivity.
    reflexivity.
Qed.

Lemma option_takes_following_file_witness :
  parse_args parser ["--verbose"; "photo.jpg"] sample_world
  = Raise (Exn SystemExit (PInt 2)) sample_world.
Proof.
  apply (option_takes_following_file "--verbose" "photo.jpg" sample_world).
  - repeat constructor.
  - reflexivity.
Defined.

End Namespace.
